(** * OpenChatKit: dynamic loss scaling and the all-reduce data-parallel step

    A shallow embedding of
    - [training/optimizer/grad_scalar.py] (module [grad_scalar]) and
    - [training/data_parallel/dist_dp_allreduce.py] (module [dist_dp_allreduce]),
    followed by the properties stated about them.

    Modelling conventions.
    - A one-element [torch.cuda.FloatTensor] is embedded twice.  In module
      [grad_scalar] it is its value as an exact rational ([Q]), with [*] as
      [Qmult] and [torch.max] as [Qmax]: equations between tensor values are
      then read up to the rounding of 32-bit floats, and what is proved there
      rests on the integer trackers and on the branch taken.  In module
      [grad_scalar32] it is the IEEE 754 binary32 value itself, with
      rounding, infinities and NaN; the bound on the scale is stated there.
    - Python integers are [Z] (unbounded), Python booleans are [bool].
    - A raised exception is the [Raise] case of [result].
    - A Python [dict] with string keys is a [gmap string _]. *)

From Stdlib Require Import ZArith QArith Qminmax Lia Lqa SpecFloat.
From stdpp Require Import base option list strings gmap functions relations.

Local Open Scope Z_scope.

(** ** Exceptions *)

Inductive exn : Type :=
| AssertionError
| KeyError (key : string)
| AttributeError
| TypeError
| RuntimeError.

Inductive result (A : Type) : Type :=
| Ok (a : A)
| Raise (e : exn).
Arguments Ok {A} a.
Arguments Raise {A} e.

(** Sequencing: the first exception raised ends the computation.  With these
    instances [x ← r; k] and [r;; k] are the usual monadic notations. *)
#[global] Instance result_ret : MRet result := fun A a => Ok a.
#[global] Instance result_bind : MBind result := fun A B k r =>
  match r with
  | Ok a => k a
  | Raise e => Raise e
  end.

(** [assert cond] *)
Definition assert (cond : bool) : result unit :=
  if cond then Ok tt else Raise AssertionError.

(** [x < y] and [x > y] on tensor values and Python floats. *)
Definition Qltb (x y : Q) : bool :=
  match (x ?= y)%Q with Lt => true | _ => false end.
Definition Qgtb (x y : Q) : bool := Qltb y x.

(** ** training/optimizer/grad_scalar.py *)

Module grad_scalar.

(** Values stored in a [state_dict]: a tensor or a Python int. *)
Inductive pyval : Type :=
| Tensor (value : Q)
| Int (value : Z).

(** [class GradScaler]: the attributes set by the base initialiser. *)
Record GradScaler : Type := mkGradScaler {
  base_device : option string;
  base_scale : Q
}.

(** [GradScaler.__init__(self, initial_scale, device=None)] *)
Definition GradScaler_init (initial_scale : Q) (device : option string)
  : result GradScaler :=
  assert (Qgtb initial_scale 0);;
  Ok {| base_device := device; base_scale := initial_scale |}.

(** [class DynamicGradScaler(GradScaler)] *)
Record DynamicGradScaler : Type := mkDynamicGradScaler {
  device : option string;
  _scale : Q;
  min_scale : Q;
  growth_factor : Q;
  backoff_factor : Q;
  growth_interval : Z;
  hysteresis : Z;
  _growth_tracker : Z;
  _hysteresis_tracker : Z
}.

(** The [scale] property of the base class. *)
Definition scale (self : DynamicGradScaler) : Q := _scale self.

(** Attribute assignments [self._scale = v], [self._growth_tracker = v],
    [self._hysteresis_tracker = v]. *)
Definition set_scale (self : DynamicGradScaler) (v : Q) : DynamicGradScaler :=
  {| device := device self; _scale := v; min_scale := min_scale self;
     growth_factor := growth_factor self; backoff_factor := backoff_factor self;
     growth_interval := growth_interval self; hysteresis := hysteresis self;
     _growth_tracker := _growth_tracker self;
     _hysteresis_tracker := _hysteresis_tracker self |}.

Definition set_growth_tracker (self : DynamicGradScaler) (v : Z) : DynamicGradScaler :=
  {| device := device self; _scale := _scale self; min_scale := min_scale self;
     growth_factor := growth_factor self; backoff_factor := backoff_factor self;
     growth_interval := growth_interval self; hysteresis := hysteresis self;
     _growth_tracker := v;
     _hysteresis_tracker := _hysteresis_tracker self |}.

Definition set_hysteresis_tracker (self : DynamicGradScaler) (v : Z) : DynamicGradScaler :=
  {| device := device self; _scale := _scale self; min_scale := min_scale self;
     growth_factor := growth_factor self; backoff_factor := backoff_factor self;
     growth_interval := growth_interval self; hysteresis := hysteresis self;
     _growth_tracker := _growth_tracker self;
     _hysteresis_tracker := v |}.

(** [DynamicGradScaler.__init__(self, initial_scale, min_scale, growth_factor,
    backoff_factor, growth_interval, hysteresis, device=None)]: the
    assertions in the order of the source. *)
Definition DynamicGradScaler_init
    (initial_scale min_scale growth_factor backoff_factor : Q)
    (growth_interval hysteresis : Z) (device : option string)
  : result DynamicGradScaler :=
  super ← GradScaler_init initial_scale device;
  assert (Qgtb min_scale 0);;
  assert (Qle_bool min_scale initial_scale);;
  assert (Qgtb growth_factor 1);;
  assert (Qltb backoff_factor 1);;
  assert (Qgtb backoff_factor 0);;
  assert (growth_interval >? 0);;
  assert (hysteresis >? 0);;
  Ok {| device := base_device super; _scale := base_scale super;
        min_scale := min_scale;
        growth_factor := growth_factor; backoff_factor := backoff_factor;
        growth_interval := growth_interval; hysteresis := hysteresis;
        _growth_tracker := 0;
        _hysteresis_tracker := hysteresis |}.

(** [DynamicGradScaler.update(self, found_inf)] *)
Definition update (self : DynamicGradScaler) (found_inf : bool) : DynamicGradScaler :=
  if found_inf then
    let self := set_growth_tracker self 0 in
    let self := set_hysteresis_tracker self (_hysteresis_tracker self - 1) in
    if _hysteresis_tracker self <=? 0 then
      set_scale self (Qmax (_scale self * backoff_factor self) (min_scale self))
    else self
  else
    let self := set_growth_tracker self (_growth_tracker self + 1) in
    if _growth_tracker self =? growth_interval self then
      let self := set_growth_tracker self 0 in
      let self := set_hysteresis_tracker self (hysteresis self) in
      set_scale self (_scale self * growth_factor self)
    else self.

(** A run of [update] calls, one per element of [founds], in order. *)
Definition updates (self : DynamicGradScaler) (founds : list bool) : DynamicGradScaler :=
  fold_left update founds self.

(** [DynamicGradScaler.state_dict(self)] *)
Definition state_dict (self : DynamicGradScaler) : gmap string pyval :=
  <["scale" := Tensor (_scale self)]>
    (<["growth_tracker" := Int (_growth_tracker self)]>
       (<["hysteresis_tracker" := Int (_hysteresis_tracker self)]> ∅)).

(** [d[key]]: a missing key raises [KeyError]. *)
Definition getitem (d : gmap string pyval) (key : string) : result pyval :=
  match d !! key with
  | Some v => Ok v
  | None => Raise (KeyError key)
  end.

(** [v.to(device)]: defined on tensors, where it keeps the value. *)
Definition to (v : pyval) (dev : option string) : result Q :=
  match v with
  | Tensor q => Ok q
  | Int _ => Raise AttributeError
  end.

(** The tracker attributes are integers in this embedding; the source stores
    whatever object the dictionary holds, unchecked.  A non-integer under a
    tracker key is outside the typed model and reported as [TypeError]. *)
Definition as_int (v : pyval) : result Z :=
  match v with
  | Int z => Ok z
  | Tensor _ => Raise TypeError
  end.

(** [DynamicGradScaler.load_state_dict(self, state_dict)] *)
Definition load_state_dict (self : DynamicGradScaler) (state_dict : gmap string pyval)
  : result DynamicGradScaler :=
  v ← getitem state_dict "scale";
  t ← to v (device self);
  let self := set_scale self t in
  v ← getitem state_dict "growth_tracker";
  g ← as_int v;
  let self := set_growth_tracker self g in
  v ← getitem state_dict "hysteresis_tracker";
  h ← as_int v;
  let self := set_hysteresis_tracker self h in
  Ok self.

(** *** The rest of the module *)

(** [class ConstantGradScaler(GradScaler)]: the attributes are those of the
    base class. *)
Definition ConstantGradScaler : Type := GradScaler.

(** [ConstantGradScaler.update(self, found_inf)]: [pass]. *)
Definition constant_update (self : ConstantGradScaler) (found_inf : bool)
  : ConstantGradScaler := self.

(** [ConstantGradScaler.state_dict(self)]: [return {}]. *)
Definition constant_state_dict (self : ConstantGradScaler) : gmap string pyval := ∅.

(** [ConstantGradScaler.load_state_dict(self, state_dict)]: [pass]. *)
Definition constant_load_state_dict (self : ConstantGradScaler)
    (state_dict : gmap string pyval) : result ConstantGradScaler := Ok self.

(** The calls a training loop makes on a scaler between checkpoints. *)
Inductive scaler_call : Type :=
| CallUpdate (found_inf : bool)
| CallLoadStateDict (state_dict : gmap string pyval).

(** A sequence of calls on a [ConstantGradScaler]. *)
Definition constant_calls (self : ConstantGradScaler) (calls : list scaler_call)
  : result ConstantGradScaler :=
  foldl (fun r c =>
           self ← r;
           match c with
           | CallUpdate found_inf => Ok (constant_update self found_inf)
           | CallLoadStateDict sd => constant_load_state_dict self sd
           end) (Ok self) calls.

(** [DynamicGradScaler.load_state_dict] with its assignments made visible:
    the object as the call leaves it, and the outcome.  The three assignments
    happen in order, so an exception leaves the earlier ones in place. *)
Definition load_state_dict_effect (self : DynamicGradScaler)
    (state_dict : gmap string pyval) : DynamicGradScaler * result unit :=
  match (v ← getitem state_dict "scale"; to v (device self)) with
  | Raise e => (self, Raise e)
  | Ok t =>
      let self := set_scale self t in
      match (v ← getitem state_dict "growth_tracker"; as_int v) with
      | Raise e => (self, Raise e)
      | Ok g =>
          let self := set_growth_tracker self g in
          match (v ← getitem state_dict "hysteresis_tracker"; as_int v) with
          | Raise e => (self, Raise e)
          | Ok h => (set_hysteresis_tracker self h, Ok tt)
          end
      end
  end.

End grad_scalar.

(** ** 32-bit tensor elements

    A [torch.cuda.FloatTensor] holds IEEE 754 binary32 values.  They are the
    [spec_float]s of the Standard Library's specification of floating-point
    arithmetic at precision 24 and maximal exponent 128; every operation
    rounds to nearest, ties to even, overflows to an infinity and yields NaN
    for [inf * 0]. *)

Module float32.

(** [torch.cuda.FloatTensor([x])] for a Python number [x]: the binary32 value
    nearest to [x].  [x] is given by its exact value; a Python float is a
    rational number with a power of two as denominator. *)
Definition FloatTensor (x : Q) : spec_float :=
  match Qnum x with
  | Z0 => S754_zero false
  | Zpos n => SFdiv 24 128 (S754_finite false n 0) (S754_finite false (Qden x) 0)
  | Zneg n => SFdiv 24 128 (S754_finite true n 0) (S754_finite false (Qden x) 0)
  end.


(** [x * y] on tensors. *)
Definition mul (x y : spec_float) : spec_float := SFmul 24 128 x y.

(** [torch.max(x, y)] on one-element tensors: the larger element, NaN when
    either is NaN. *)
Definition maximum (x y : spec_float) : spec_float :=
  match SFcompare x y with
  | Some Lt => y
  | Some _ => x
  | None => S754_nan
  end.


End float32.

(** ** training/optimizer/grad_scalar.py, with 32-bit tensors

    The classes of [grad_scalar] again, with every tensor attribute holding
    the binary32 value the source stores and every tensor operation rounding
    as it does.  [grad_scalar] above keeps tensor values exact; that is
    enough where only the trackers and the branch taken matter, and is not
    where a property depends on the order of the stored values. *)

Module grad_scalar32.

(** [class GradScaler] *)
Record GradScaler : Type := mkGradScaler {
  base_device : option string;
  base_scale : spec_float
}.

(** [GradScaler.__init__(self, initial_scale, device=None)]: the assertion is
    made on the Python number, the tensor holds its binary32 rounding. *)
Definition GradScaler_init (initial_scale : Q) (device : option string)
  : result GradScaler :=
  assert (Qgtb initial_scale 0);;
  Ok {| base_device := device;
        base_scale := float32.FloatTensor initial_scale |}.

(** [class DynamicGradScaler(GradScaler)] *)
Record DynamicGradScaler : Type := mkDynamicGradScaler {
  device : option string;
  _scale : spec_float;
  min_scale : spec_float;
  growth_factor : spec_float;
  backoff_factor : spec_float;
  growth_interval : Z;
  hysteresis : Z;
  _growth_tracker : Z;
  _hysteresis_tracker : Z
}.

(** The [scale] property of the base class. *)
Definition scale (self : DynamicGradScaler) : spec_float := _scale self.

Definition set_scale (self : DynamicGradScaler) (v : spec_float) : DynamicGradScaler :=
  {| device := device self; _scale := v; min_scale := min_scale self;
     growth_factor := growth_factor self; backoff_factor := backoff_factor self;
     growth_interval := growth_interval self; hysteresis := hysteresis self;
     _growth_tracker := _growth_tracker self;
     _hysteresis_tracker := _hysteresis_tracker self |}.

Definition set_growth_tracker (self : DynamicGradScaler) (v : Z) : DynamicGradScaler :=
  {| device := device self; _scale := _scale self; min_scale := min_scale self;
     growth_factor := growth_factor self; backoff_factor := backoff_factor self;
     growth_interval := growth_interval self; hysteresis := hysteresis self;
     _growth_tracker := v;
     _hysteresis_tracker := _hysteresis_tracker self |}.

Definition set_hysteresis_tracker (self : DynamicGradScaler) (v : Z) : DynamicGradScaler :=
  {| device := device self; _scale := _scale self; min_scale := min_scale self;
     growth_factor := growth_factor self; backoff_factor := backoff_factor self;
     growth_interval := growth_interval self; hysteresis := hysteresis self;
     _growth_tracker := _growth_tracker self;
     _hysteresis_tracker := v |}.

(** [DynamicGradScaler.__init__]: each assertion compares the Python
    arguments; each tensor attribute is built from its argument afterwards. *)
Definition DynamicGradScaler_init
    (initial_scale min_scale growth_factor backoff_factor : Q)
    (growth_interval hysteresis : Z) (device : option string)
  : result DynamicGradScaler :=
  super ← GradScaler_init initial_scale device;
  assert (Qgtb min_scale 0);;
  assert (Qle_bool min_scale initial_scale);;
  let min_scale_tensor := float32.FloatTensor min_scale in
  assert (Qgtb growth_factor 1);;
  let growth_factor_tensor := float32.FloatTensor growth_factor in
  assert (Qltb backoff_factor 1);;
  assert (Qgtb backoff_factor 0);;
  let backoff_factor_tensor := float32.FloatTensor backoff_factor in
  assert (growth_interval >? 0);;
  assert (hysteresis >? 0);;
  Ok {| device := base_device super; _scale := base_scale super;
        min_scale := min_scale_tensor;
        growth_factor := growth_factor_tensor;
        backoff_factor := backoff_factor_tensor;
        growth_interval := growth_interval; hysteresis := hysteresis;
        _growth_tracker := 0;
        _hysteresis_tracker := hysteresis |}.

(** [DynamicGradScaler.update(self, found_inf)] *)
Definition update (self : DynamicGradScaler) (found_inf : bool) : DynamicGradScaler :=
  if found_inf then
    let self := set_growth_tracker self 0 in
    let self := set_hysteresis_tracker self (_hysteresis_tracker self - 1) in
    if _hysteresis_tracker self <=? 0 then
      set_scale self
        (float32.maximum (float32.mul (_scale self) (backoff_factor self))
           (min_scale self))
    else self
  else
    let self := set_growth_tracker self (_growth_tracker self + 1) in
    if _growth_tracker self =? growth_interval self then
      let self := set_growth_tracker self 0 in
      let self := set_hysteresis_tracker self (hysteresis self) in
      set_scale self (float32.mul (_scale self) (growth_factor self))
    else self.

(** A run of [update] calls, one per element of [founds], in order. *)
Definition updates (self : DynamicGradScaler) (founds : list bool) : DynamicGradScaler :=
  fold_left update founds self.

End grad_scalar32.

(** ** training/data_parallel/dist_dp_allreduce.py *)

Module dist_dp_allreduce.

(** *** Streams, events and the calls the host issues on them *)

(** The two [torch.cuda.Stream]s of an [AllReduceDP]. *)
Inductive stream : Type :=
| dp_comm_stream
| torch_optim_comp_stream.

(** The [torch.cuda.Event] objects.  The first three are created by every
    [__init__]; the next four only when tidy profiling is on, and are then
    held by the attribute (or dictionary entry) named in the comment; an
    [other_event] is an event of the caller. *)
Inductive event : Type :=
| backward_ready_event
| allreduce_grad_ready_event
| optimizer_step_ready_event
| flat_start_event                  (* self.allreduce_gradients_start_event *)
| start_event_of (name : string)    (* self.allreduce_gradients_start_events[name] *)
| end_event_of (name : string)      (* self.allreduce_gradients_end_events[name] *)
| step_start_event                  (* self.optimizer_step_start_event *)
| other_event (id : nat).

(** Gradient buffers handed to the collective. *)
Inductive buffer : Type :=
| flatten_para_grad                 (* self.flatten_para.grad *)
| para_grad (name : string).        (* para.grad of the parameter [name] *)

(** Work enqueued on a stream besides waits and records. *)
Inductive kernel : Type :=
| all_reduce (buf : buffer)         (* self.dp_comm.all_reduce(buf, stream=...) *)
| optimizer_update.                 (* self.optimizer.step() *)

(** One call of the host on a stream. *)
Inductive call : Type :=
| WaitEvent (s : stream) (e : event)
| RecordEvent (s : stream) (e : event)
| Launch (s : stream) (k : kernel).

#[global] Instance stream_eq_dec : EqDecision stream.
Proof. solve_decision. Defined.
#[global] Instance event_eq_dec : EqDecision event.
Proof. solve_decision. Defined.
#[global] Instance buffer_eq_dec : EqDecision buffer.
Proof. solve_decision. Defined.
#[global] Instance kernel_eq_dec : EqDecision kernel.
Proof. solve_decision. Defined.
#[global] Instance call_eq_dec : EqDecision call.
Proof. solve_decision. Defined.

(** *** The host side: methods issue calls and may raise

    A method is a function from the log of calls issued so far to its
    outcome and the extended log; calls issued before an exception stay
    issued. *)
Definition host (A : Type) : Type := list call -> result A * list call.

#[global] Instance host_ret : MRet host := fun A a log => (Ok a, log).
#[global] Instance host_bind : MBind host := fun A B k m log =>
  match m log with
  | (Ok a, log') => k a log'
  | (Raise e, log') => (Raise e, log')
  end.

Definition issue (c : call) : host unit := fun log => (Ok tt, log ++ [c]).
Definition lift {A : Type} (r : result A) : host A := fun log => (r, log).

(** [stream.wait_event(event)], [stream.record_event(event)]. *)
Definition wait_event (s : stream) (e : event) : host unit := issue (WaitEvent s e).
Definition record_event (s : stream) (e : event) : host unit := issue (RecordEvent s e).

(** [for x in l: body(x)] *)
Fixpoint for_each {A : Type} (l : list A) (body : A -> host unit) : host unit :=
  match l with
  | [] => mret tt
  | x :: l' => body x;; for_each l' body
  end.

(** [obj.attr] for an attribute that may be missing (or hold [None] where
    the next use dereferences it). *)
Definition getattr {A : Type} (o : option A) : result A :=
  match o with
  | Some a => Ok a
  | None => Raise AttributeError
  end.

(** [d[key]] on a dictionary of events. *)
Definition getitem (d : gmap string event) (key : string) : result event :=
  match d !! key with
  | Some v => Ok v
  | None => Raise (KeyError key)
  end.

(** *** The object *)

(** One entry of [module.named_parameters()]. *)
Record parameter : Type := mkParameter {
  para_name : string;
  para_numel : Z;               (* torch.numel(para.data) *)
  para_element_size : Z;        (* para.element_size() *)
  para_grad_is_None : bool      (* para.grad is None *)
}.

(** The flattened parameter. *)
Record flat_parameter : Type := mkFlat {
  flat_numel : Z                (* flatten_para.grad.numel() *)
}.

(** Modelled from the spec: [flatten_params] of [flatten_utils] is not among
    the sources.  The spec describes its result as one contiguous buffer whose
    length is the total element count across all parameters. *)
Definition flatten_params (module : list parameter) : flat_parameter :=
  {| flat_numel := foldr (fun p n => para_numel p + n) 0 module |}.

Inductive Optimizer : Type := TorchOptimizer (id : nat).

Record Args : Type := mkArgs {
  rank : Z;
  data_group_size : Z;
  profiling : string
}.

(** [class AllReduceDP].  An attribute that [__init__] sets only in some
    modes is an [option]: [None] stands for the missing attribute (for
    [init_event] and [init_time_stamp] also for the value [None]). *)
Record AllReduceDP : Type := mkAllReduceDP {
  flatten : bool;
  global_rank : Z;
  dp_group_size : Z;
  enable_tidy_profiling : bool;
  module : list parameter;
  flatten_para : option flat_parameter;
  optimizer : Optimizer;
  init_event : option event;
  init_time_stamp : option Q;
  allreduce_gradients_start_event : option event;
  allreduce_gradients_start_events : option (gmap string event);
  allreduce_gradients_end_events : option (gmap string event);
  optimizer_step_start_event : option event
}.

(** The dictionary filled by
    [for name, _ in self.module.named_parameters(): d[name] = torch.cuda.Event(...)]. *)
Definition events_by_name (mk : string -> event) (module : list parameter)
  : gmap string event :=
  foldl (fun d p => <[para_name p := mk (para_name p)]> d) ∅ module.

(** [AllReduceDP.__init__(self, args, device, module, optimizer=None, flatten=True)].
    The communicator lookups of [comm.comm_utils] and the stream and event
    constructors are taken to succeed. *)
Definition AllReduceDP_init (args : Args) (device : option string)
    (module : list parameter) (optimizer : option Optimizer) (flatten : bool)
  : result AllReduceDP :=
  let enable_tidy_profiling := String.eqb (profiling args) "tidy_profiling" in
  let flatten_para := if flatten then Some (flatten_params module) else None in
  match optimizer with
  | None => Raise AssertionError            (* assert optimizer is not None *)
  | Some optimizer =>
      Ok {| flatten := flatten;
            global_rank := rank args;
            dp_group_size := data_group_size args;
            enable_tidy_profiling := enable_tidy_profiling;
            module := module;
            flatten_para := flatten_para;
            optimizer := optimizer;
            init_event := None;
            init_time_stamp := None;
            allreduce_gradients_start_event :=
              if enable_tidy_profiling && flatten then Some flat_start_event else None;
            allreduce_gradients_start_events :=
              if enable_tidy_profiling && negb flatten
              then Some (events_by_name start_event_of module) else None;
            allreduce_gradients_end_events :=
              if enable_tidy_profiling && negb flatten
              then Some (events_by_name end_event_of module) else None;
            optimizer_step_start_event :=
              if enable_tidy_profiling then Some step_start_event else None |}
  end.

(** [if name:] on an optional string. *)
Definition truthy (name : option string) : bool :=
  match name with
  | None => false
  | Some n => negb (String.eqb n "")
  end.

(** [AllReduceDP.profile_mark_allreduce_start(self, name=None)] *)
Definition profile_mark_allreduce_start (self : AllReduceDP) (name : option string)
  : host unit :=
  if enable_tidy_profiling self then
    match name with
    | None =>
        e ← lift (getattr (allreduce_gradients_start_event self));
        record_event dp_comm_stream e
    | Some n =>
        d ← lift (getattr (allreduce_gradients_start_events self));
        e ← lift (getitem d n);
        record_event dp_comm_stream e
    end
  else mret tt.

(** [AllReduceDP.profile_mark_allreduce_end(self, name=None)] *)
Definition profile_mark_allreduce_end (self : AllReduceDP) (name : option string)
  : host unit :=
  if enable_tidy_profiling self && truthy name then
    d ← lift (getattr (allreduce_gradients_end_events self));
    e ← lift (getitem d (default "" name));
    record_event dp_comm_stream e
  else mret tt.

(** [AllReduceDP.profile_mark_optimizer_step_start(self)] *)
Definition profile_mark_optimizer_step_start (self : AllReduceDP) : host unit :=
  if enable_tidy_profiling self then
    e ← lift (getattr (optimizer_step_start_event self));
    record_event torch_optim_comp_stream e
  else mret tt.

(** [AllReduceDP._allreduce_gradients(self)] *)
Definition _allreduce_gradients (self : AllReduceDP) : host unit :=
  wait_event dp_comm_stream backward_ready_event;;
  (if flatten self then
     profile_mark_allreduce_start self None;;
     _ ← lift (getattr (flatten_para self));
     issue (Launch dp_comm_stream (all_reduce flatten_para_grad));;
     profile_mark_allreduce_end self None
   else
     for_each (module self) (fun para =>
       if para_grad_is_None para then mret tt
       else
         profile_mark_allreduce_start self (Some (para_name para));;
         issue (Launch dp_comm_stream (all_reduce (para_grad (para_name para))));;
         profile_mark_allreduce_end self (Some (para_name para))));;
  record_event dp_comm_stream allreduce_grad_ready_event.

(** [AllReduceDP.optimizer_step(self)] *)
Definition optimizer_step (self : AllReduceDP) : host unit :=
  _allreduce_gradients self;;
  wait_event torch_optim_comp_stream allreduce_grad_ready_event;;
  profile_mark_optimizer_step_start self;;
  issue (Launch torch_optim_comp_stream optimizer_update);;
  record_event torch_optim_comp_stream optimizer_step_ready_event.

(** [AllReduceDP.set_time_stamp(self, init_time_stamp, init_event)] *)
Definition set_time_stamp (self : AllReduceDP) (ts : Q) (ev : event) : AllReduceDP :=
  {| flatten := flatten self; global_rank := global_rank self;
     dp_group_size := dp_group_size self;
     enable_tidy_profiling := enable_tidy_profiling self;
     module := module self; flatten_para := flatten_para self;
     optimizer := optimizer self;
     init_event := Some ev;
     init_time_stamp := Some ts;
     allreduce_gradients_start_event := allreduce_gradients_start_event self;
     allreduce_gradients_start_events := allreduce_gradients_start_events self;
     allreduce_gradients_end_events := allreduce_gradients_end_events self;
     optimizer_step_start_event := optimizer_step_start_event self |}.

(** *** Trace timestamps *)

(** One record of the profiling log (a dictionary with fixed keys). *)
Record trace_entry : Type := mkTraceEntry {
  log_name : string;
  log_ph : string;
  log_pid : Z;
  log_tid : string;
  log_ts : Q;
  log_dur : Q;
  log_cname : string;
  log_args : option (string * Z)      (* {'para': ..., 'size': ...} *)
}.

(** [[f(x) for x in l]] with a body that may raise. *)
Fixpoint map_result {A B : Type} (f : A -> result B) (l : list A) : result (list B) :=
  match l with
  | [] => Ok []
  | x :: l' => y ← f x; ys ← map_result f l'; Ok (y :: ys)
  end.

Section Timing.

(** [e1.elapsed_time(e2)]: the time between two recorded events, in
    milliseconds, as [torch.cuda.Event] measures it; it raises when an
    event has not been recorded or was created without timing. *)
Variable elapsed_time : event -> event -> result Q.

(** [AllReduceDP.get_ts(self, event)]; [1e+3] is [1000]. *)
Definition get_ts (self : AllReduceDP) (ev : event) : result Q :=
  e0 ← getattr (init_event self);
  d ← elapsed_time e0 ev;
  match init_time_stamp self with
  | Some t0 => Ok (t0 + d * 1000)%Q
  | None => Raise TypeError
  end.

(** [AllReduceDP.profiling_data_parallel(self, init_time_stamp, init_event)]:
    the object after [set_time_stamp] and the returned log. *)
Definition profiling_data_parallel (self : AllReduceDP)
    (init_time_stamp0 : Q) (init_event0 : event)
  : result (AllReduceDP * list trace_entry) :=
  let self := set_time_stamp self init_time_stamp0 init_event0 in
  profiling_log ←
    (if flatten self then
       start ← getattr (allreduce_gradients_start_event self);
       d ← elapsed_time start allreduce_grad_ready_event;
       let allreduce_slot := (d * 1000)%Q in
       ts ← get_ts self start;
       fp ← getattr (flatten_para self);
       Ok [ {| log_name := "opt_allreduce"; log_ph := "X";
               log_pid := global_rank self; log_tid := "7. optimizer-comm";
               log_ts := ts; log_dur := allreduce_slot;
               log_cname := "cq_build_passed";
               log_args := Some ("flattened_grad", flat_numel fp) |} ]
     else
       map_result (fun para =>
         starts ← getattr (allreduce_gradients_start_events self);
         start ← getitem starts (para_name para);
         ends ← getattr (allreduce_gradients_end_events self);
         end_ ← getitem ends (para_name para);
         d ← elapsed_time start end_;
         let allreduce_slot := (d * 1000)%Q in
         ts ← get_ts self start;
         Ok {| log_name := "opt_allreduce"; log_ph := "X";
               log_pid := global_rank self; log_tid := "7. optimizer-comm";
               log_ts := ts; log_dur := allreduce_slot;
               log_cname := "cq_build_passed";
               log_args := Some (para_name para, para_numel para) |})
         (module self));
  step_start ← getattr (optimizer_step_start_event self);
  d ← elapsed_time step_start optimizer_step_ready_event;
  let optimizer_slot := (d * 1000)%Q in
  ts ← get_ts self step_start;
  Ok (self,
      profiling_log ++
      [ {| log_name := "opt_comp"; log_ph := "X";
           log_pid := global_rank self; log_tid := "8. optimizer-comp";
           log_ts := ts; log_dur := optimizer_slot;
           log_cname := "bad"; log_args := None |} ]).

End Timing.

(** *** The device side: what the streams do with the calls

    The semantics of CUDA streams and events, which [torch.cuda] exposes.
    - A call on a stream appends one operation to that stream's queue.
    - [record_event] starts a new generation of the event; [wait_event]
      captures the generation current at the time of the call (generation
      [0]: never recorded, the wait is then a no-operation).
    - Each stream runs its operations in queue order, one at a time; a wait
      begins only once the captured record has completed.
    - Streams advance independently of each other and of the host.
    This is also how the specification describes its execution queues and
    sync points (FIFO within a queue, ordering across queues only through a
    wait on a recorded point).  The wait issued by [optimizer_step] always
    follows a record of its event, so generation [0] plays no part in the
    ordering property below. *)

Inductive op : Type :=
| OpWait (e : event) (g : nat)
| OpRecord (e : event) (g : nat)
| OpKernel (k : kernel).

(** What the host has submitted so far. *)
Record driver : Type := mkDriver {
  gen : event -> nat;               (* records issued per event *)
  queue : stream -> list op         (* all operations enqueued, in order *)
}.

Definition enqueue (c : call) (d : driver) : driver :=
  match c with
  | WaitEvent s e =>
      {| gen := gen d;
         queue := <[s := queue d s ++ [OpWait e (gen d e)]]> (queue d) |}
  | RecordEvent s e =>
      {| gen := <[e := S (gen d e)]> (gen d);
         queue := <[s := queue d s ++ [OpRecord e (S (gen d e))]]> (queue d) |}
  | Launch s k =>
      {| gen := gen d;
         queue := <[s := queue d s ++ [OpKernel k]]> (queue d) |}
  end.

Definition enqueue_all (cs : list call) (d : driver) : driver :=
  foldl (fun d c => enqueue c d) d cs.

(** How far the streams have got. *)
Record device : Type := mkDevice {
  pc : stream -> nat;               (* operations completed per stream *)
  busy : stream -> bool;            (* the operation at [pc] has begun *)
  fired : list (event * nat)        (* records completed *)
}.

Record machine : Type := mkMachine {
  pending : list call;              (* calls the host has yet to issue *)
  drv : driver;
  dev : device
}.

Definition boot (program : list call) : machine :=
  {| pending := program;
     drv := {| gen := fun _ => 0%nat; queue := fun _ => [] |};
     dev := {| pc := fun _ => 0%nat; busy := fun _ => false; fired := [] |} |}.

Definition ready (dv : device) (o : op) : bool :=
  match o with
  | OpWait e g => bool_decide (g = 0%nat) || bool_decide ((e, g) ∈ fired dv)
  | _ => true
  end.

Inductive action : Type :=
| HostIssue                         (* the host issues its next call *)
| Begin (s : stream)                (* stream [s] begins its next operation *)
| Finish (s : stream).              (* stream [s] completes the running one *)

Definition step_by (a : action) (m : machine) : option machine :=
  match a with
  | HostIssue =>
      match pending m with
      | [] => None
      | c :: cs => Some {| pending := cs; drv := enqueue c (drv m); dev := dev m |}
      end
  | Begin s =>
      if busy (dev m) s then None else
      match queue (drv m) s !! pc (dev m) s with
      | Some o =>
          if ready (dev m) o
          then Some {| pending := pending m; drv := drv m;
                       dev := {| pc := pc (dev m);
                                 busy := <[s := true]> (busy (dev m));
                                 fired := fired (dev m) |} |}
          else None
      | None => None
      end
  | Finish s =>
      if busy (dev m) s then
        match queue (drv m) s !! pc (dev m) s with
        | Some o =>
            Some {| pending := pending m; drv := drv m;
                    dev := {| pc := <[s := S (pc (dev m) s)]> (pc (dev m));
                              busy := <[s := false]> (busy (dev m));
                              fired := match o with
                                       | OpRecord e g => (e, g) :: fired (dev m)
                                       | _ => fired (dev m)
                                       end |} |}
        | None => None
        end
      else None
  end.

Definition step (m m' : machine) : Prop := ∃ a, step_by a m = Some m'.

(** Every interleaving of host and streams: the states reachable from
    [boot program]. *)
Definition reachable (program : list call) (m : machine) : Prop :=
  rtc step (boot program) m.

(** Running a given schedule. *)
Fixpoint run (schedule : list action) (m : machine) : option machine :=
  match schedule with
  | [] => Some m
  | a :: schedule' =>
      match step_by a m with
      | Some m' => run schedule' m'
      | None => None
      end
  end.

(** The operation at index [i] of stream [s] has begun, has completed. *)
Definition begun (m : machine) (s : stream) (i : nat) : Prop :=
  (i < pc (dev m) s)%nat ∨ (i = pc (dev m) s ∧ busy (dev m) s = true).
Definition completed (m : machine) (s : stream) (i : nat) : Prop :=
  (i < pc (dev m) s)%nat.

(** The calls of a program that go to stream [s], in order: the [i]-th of
    them becomes the operation at index [i] of the queue of [s]. *)
Definition stream_of (c : call) : stream :=
  match c with
  | WaitEvent s _ | RecordEvent s _ | Launch s _ => s
  end.
Definition calls_on (s : stream) (cs : list call) : list call :=
  filter (fun c => stream_of c = s) cs.

(** The calls a method issues when run from an empty log. *)
Definition calls_of {A : Type} (m : host A) : list call := snd (m []).

(** *** The rest of the class *)

(** [AllReduceDP._compute_total_para_num(self)] *)
Definition _compute_total_para_num (self : AllReduceDP) : Z * Z :=
  foldl (fun '(total_count, element_size) para =>
           (total_count + para_numel para, para_element_size para))
        (0, 0) (module self).

End dist_dp_allreduce.

(** * Properties *)

Import grad_scalar.

(** ** Comparisons and assertions *)

Lemma Qltb_lt (x y : Q) : Qltb x y = true <-> (x < y)%Q.
Proof.
  unfold Qltb. rewrite Qlt_alt.
  destruct (x ?= y)%Q; split; intros H; (reflexivity || discriminate).
Qed.

Lemma Qltb_ge (x y : Q) : Qltb x y = false <-> (y <= x)%Q.
Proof.
  split; intros H.
  - apply Qnot_lt_le. intros Hlt. apply Qltb_lt in Hlt. congruence.
  - destruct (Qltb x y) eqn:E; [|reflexivity].
    apply Qltb_lt in E. exfalso. exact (Qlt_not_le _ _ E H).
Qed.

Lemma Qle_bool_gt (x y : Q) : Qle_bool x y = false <-> (y < x)%Q.
Proof.
  split; intros H.
  - apply Qnot_le_lt. intros Hle. apply Qle_bool_iff in Hle. congruence.
  - destruct (Qle_bool x y) eqn:E; [|reflexivity].
    apply Qle_bool_iff in E. exfalso. exact (Qlt_not_le _ _ H E).
Qed.

(** The preconditions of [DynamicGradScaler.__init__]. *)
Definition valid_parameters
    (initial_scale min_scale growth_factor backoff_factor : Q)
    (growth_interval hysteresis : Z) : Prop :=
  (0 < initial_scale)%Q /\ (0 < min_scale)%Q /\ (min_scale <= initial_scale)%Q /\
  (1 < growth_factor)%Q /\ (0 < backoff_factor)%Q /\ (backoff_factor < 1)%Q /\
  0 < growth_interval /\ 0 < hysteresis.

(** With valid parameters the initialiser returns the object holding exactly
    the given values, with the trackers at their start values. *)
Lemma init_valid initial_scale min_scale growth_factor backoff_factor
    growth_interval hysteresis dev :
  valid_parameters initial_scale min_scale growth_factor backoff_factor
    growth_interval hysteresis ->
  DynamicGradScaler_init initial_scale min_scale growth_factor backoff_factor
    growth_interval hysteresis dev =
  Ok {| device := dev; _scale := initial_scale; min_scale := min_scale;
        growth_factor := growth_factor; backoff_factor := backoff_factor;
        growth_interval := growth_interval; hysteresis := hysteresis;
        _growth_tracker := 0; _hysteresis_tracker := hysteresis |}.
Proof.
  intros (H1 & H2 & H3 & H4 & H5 & H6 & H7 & H8).
  unfold DynamicGradScaler_init, GradScaler_init, Qgtb.
  apply Qltb_lt in H1, H2, H4, H5, H6. apply Qle_bool_iff in H3.
  apply Z.gtb_lt in H7, H8.
  rewrite H1, H2, H3, H4, H5, H6, H7, H8. reflexivity.
Qed.

(** Whatever the arguments, the initialiser either returns an object or
    raises [AssertionError]; it returns one only for valid parameters. *)
Lemma init_cases initial_scale min_scale growth_factor backoff_factor
    growth_interval hysteresis dev :
  (valid_parameters initial_scale min_scale growth_factor backoff_factor
     growth_interval hysteresis) \/
  (DynamicGradScaler_init initial_scale min_scale growth_factor backoff_factor
     growth_interval hysteresis dev = Raise AssertionError /\
   ((initial_scale <= 0)%Q \/ (min_scale <= 0)%Q \/ (initial_scale < min_scale)%Q \/
    (growth_factor <= 1)%Q \/ ~ ((0 < backoff_factor)%Q /\ (backoff_factor < 1)%Q) \/
    growth_interval <= 0 \/ hysteresis <= 0)).
Proof.
  unfold DynamicGradScaler_init, GradScaler_init, Qgtb, valid_parameters.
  destruct (Qltb 0 initial_scale) eqn:E1;
    [|right; split; [reflexivity|left; now apply Qltb_ge]].
  destruct (Qltb 0 min_scale) eqn:E2;
    [|right; split; [reflexivity|right; left; now apply Qltb_ge]].
  destruct (Qle_bool min_scale initial_scale) eqn:E3;
    [|right; split; [reflexivity|right; right; left; now apply Qle_bool_gt]].
  destruct (Qltb 1 growth_factor) eqn:E4;
    [|right; split; [reflexivity|do 3 right; left; now apply Qltb_ge]].
  destruct (Qltb backoff_factor 1) eqn:E5;
    [|right; split; [reflexivity|do 4 right; left; intros [_ H];
                     apply Qltb_lt in H; congruence]].
  destruct (Qltb 0 backoff_factor) eqn:E6;
    [|right; split; [reflexivity|do 4 right; left; intros [H _];
                     apply Qltb_lt in H; congruence]].
  destruct (growth_interval >? 0) eqn:E7;
    [|right; split; [reflexivity|do 5 right; left;
                     destruct (Z.gtb_spec growth_interval 0); [discriminate|lia]]].
  destruct (hysteresis >? 0) eqn:E8;
    [|right; split; [reflexivity|do 6 right;
                     destruct (Z.gtb_spec hysteresis 0); [discriminate|lia]]].
  left. apply Qltb_lt in E1, E2, E4, E5, E6. apply Qle_bool_iff in E3.
  apply Z.gtb_lt in E7, E8. tauto.
Qed.

(** ** One [update] call, field by field *)

Lemma update_config (self : DynamicGradScaler) (found_inf : bool) :
  device (update self found_inf) = device self /\
  min_scale (update self found_inf) = min_scale self /\
  growth_factor (update self found_inf) = growth_factor self /\
  backoff_factor (update self found_inf) = backoff_factor self /\
  growth_interval (update self found_inf) = growth_interval self /\
  hysteresis (update self found_inf) = hysteresis self.
Proof.
  unfold update. destruct found_inf; simpl.
  - destruct (_hysteresis_tracker self - 1 <=? 0); simpl; tauto.
  - destruct (_growth_tracker self + 1 =? growth_interval self); simpl; tauto.
Qed.

Lemma update_hysteresis_tracker (self : DynamicGradScaler) (found_inf : bool) :
  _hysteresis_tracker (update self found_inf) =
  if found_inf then _hysteresis_tracker self - 1
  else if _growth_tracker self + 1 =? growth_interval self then hysteresis self
       else _hysteresis_tracker self.
Proof.
  unfold update. destruct found_inf; simpl.
  - destruct (_hysteresis_tracker self - 1 <=? 0); reflexivity.
  - destruct (_growth_tracker self + 1 =? growth_interval self); reflexivity.
Qed.

Lemma update_growth_tracker (self : DynamicGradScaler) (found_inf : bool) :
  _growth_tracker (update self found_inf) =
  if found_inf then 0
  else if _growth_tracker self + 1 =? growth_interval self then 0
       else _growth_tracker self + 1.
Proof.
  unfold update. destruct found_inf; simpl.
  - destruct (_hysteresis_tracker self - 1 <=? 0); reflexivity.
  - destruct (_growth_tracker self + 1 =? growth_interval self); reflexivity.
Qed.

Lemma update_scale (self : DynamicGradScaler) (found_inf : bool) :
  _scale (update self found_inf) =
  if found_inf then
    if _hysteresis_tracker self - 1 <=? 0
    then Qmax (_scale self * backoff_factor self) (min_scale self)
    else _scale self
  else if _growth_tracker self + 1 =? growth_interval self
       then (_scale self * growth_factor self)%Q
       else _scale self.
Proof.
  unfold update. destruct found_inf; simpl.
  - destruct (_hysteresis_tracker self - 1 <=? 0); reflexivity.
  - destruct (_growth_tracker self + 1 =? growth_interval self); reflexivity.
Qed.

(** ** Runs of [update] calls *)

Lemma updates_snoc (self : DynamicGradScaler) (founds : list bool) (found_inf : bool) :
  updates self (founds ++ [found_inf]) = update (updates self founds) found_inf.
Proof. unfold updates. rewrite fold_left_app. reflexivity. Qed.

Lemma repeat_snoc {A : Type} (x : A) (n : nat) : repeat x (S n) = repeat x n ++ [x].
Proof. induction n as [|n IH]; simpl in *; [reflexivity|]. now rewrite <- IH. Qed.

Lemma updates_repeat_S (self : DynamicGradScaler) (found_inf : bool) (n : nat) :
  updates self (repeat found_inf (S n)) =
  update (updates self (repeat found_inf n)) found_inf.
Proof. rewrite repeat_snoc. apply updates_snoc. Qed.

Lemma updates_config (self : DynamicGradScaler) (founds : list bool) :
  min_scale (updates self founds) = min_scale self /\
  growth_factor (updates self founds) = growth_factor self /\
  backoff_factor (updates self founds) = backoff_factor self /\
  growth_interval (updates self founds) = growth_interval self /\
  hysteresis (updates self founds) = hysteresis self.
Proof.
  revert self. induction founds as [|b founds IH]; intros self; simpl.
  - tauto.
  - destruct (IH (update self b)) as (-> & -> & -> & -> & ->).
    destruct (update_config self b) as (_ & -> & -> & -> & -> & ->). tauto.
Qed.

(** ** Rounding of 32-bit products *)





































(** *** The conversion of a Python number *)





(** *** Rounding to nearest, ties to even *)












(** *** What the conversion computes *)




















(** *** [torch.max] and one [update] call on 32-bit tensors *)




(** The two embeddings of [update] take the same branches: started from equal
    trackers, interval and hysteresis, they keep equal trackers. *)
Lemma update32_trackers (self : grad_scalar32.DynamicGradScaler)
    (exact : DynamicGradScaler) (found_inf : bool) :
  grad_scalar32.growth_interval self = growth_interval exact ->
  grad_scalar32.hysteresis self = hysteresis exact ->
  grad_scalar32._growth_tracker self = _growth_tracker exact ->
  grad_scalar32._hysteresis_tracker self = _hysteresis_tracker exact ->
  grad_scalar32._growth_tracker (grad_scalar32.update self found_inf) =
    _growth_tracker (update exact found_inf) /\
  grad_scalar32._hysteresis_tracker (grad_scalar32.update self found_inf) =
    _hysteresis_tracker (update exact found_inf).
Proof.
  intros Hi Hh Hg Ht. rewrite update_growth_tracker, update_hysteresis_tracker.
  unfold grad_scalar32.update. rewrite <- Hi, <- Hh, <- Hg, <- Ht.
  destruct found_inf; simpl.
  - destruct (grad_scalar32._hysteresis_tracker self - 1 <=? 0); simpl; tauto.
  - destruct (grad_scalar32._growth_tracker self + 1 =? grad_scalar32.growth_interval self);
      simpl; tauto.
Qed.

(** *** The lower bound on the scale *)






(** *** What the assertions ensure of the stored tensors *)











(** ** The example of the specification *)

(** The scaler of the example in the specification: initial scale 2^16,
    minimum 1, growth factor 2, backoff factor 1/2, growth interval 2,
    hysteresis 1. *)
Definition example_scaler : DynamicGradScaler :=
  {| device := None; _scale := 65536; min_scale := 1;
     growth_factor := 2; backoff_factor := 1 # 2;
     growth_interval := 2; hysteresis := 1;
     _growth_tracker := 0; _hysteresis_tracker := 1 |}.

Lemma example_scaler_valid : valid_parameters 65536 1 2 (1 # 2) 2 1.
Proof. unfold valid_parameters. repeat split; (reflexivity || discriminate). Defined.

Lemma example_scaler_init :
  DynamicGradScaler_init 65536 1 2 (1 # 2) 2 1 None = Ok example_scaler.
Proof. reflexivity. Qed.

(** The run [false, false, true] of the example: the scale doubles on the
    second call and is halved again on the third. *)
Example example_run :
  let s2 := updates example_scaler [false; false] in
  let s3 := update s2 true in
  (_scale s2 == 131072)%Q /\ _growth_tracker s2 = 0 /\
  (_scale s3 == 65536)%Q /\ _hysteresis_tracker s3 = 0.
Proof. repeat split. Qed.

(** ** Consecutive overflow steps *)

Lemma overflow_run_trackers (self : DynamicGradScaler) (n : nat) :
  _hysteresis_tracker (updates self (repeat true n)) =
  _hysteresis_tracker self - Z.of_nat n.
Proof.
  induction n as [|n IH].
  - simpl. lia.
  - rewrite updates_repeat_S, update_hysteresis_tracker, IH. lia.
Qed.

Lemma overflow_run_growth_tracker (self : DynamicGradScaler) (n : nat) :
  (0 < n)%nat -> _growth_tracker (updates self (repeat true n)) = 0.
Proof.
  destruct n as [|n]; [lia|]. intros _.
  now rewrite updates_repeat_S, update_growth_tracker.
Qed.

(** While the hysteresis tracker stays above zero, overflow steps leave the
    scale alone. *)
Lemma overflow_run_scale_kept (self : DynamicGradScaler) (n : nat) :
  Z.of_nat n < _hysteresis_tracker self ->
  _scale (updates self (repeat true n)) = _scale self.
Proof.
  induction n as [|n IH]; intros Hn.
  - reflexivity.
  - rewrite updates_repeat_S, update_scale, overflow_run_trackers.
    destruct (Z.leb_spec (_hysteresis_tracker self - Z.of_nat n - 1) 0); [lia|].
    apply IH. lia.
Qed.

(** C2.  A backoff does not reset the hysteresis tracker: [update] changes it
    only by the decrement of an overflow step or by the reset of a completed
    growth interval.  Hence from a state whose tracker is at most 1, each call
    of a run of [update(True)] applies the backoff again, the tracker is
    decremented each time, and it falls below every bound. *)
Theorem backoff_repeats_without_reset (self : DynamicGradScaler) :
  _hysteresis_tracker self <= 1 ->
  (forall (s : DynamicGradScaler) (found_inf : bool),
      _hysteresis_tracker (update s found_inf) =
      if found_inf then _hysteresis_tracker s - 1
      else if _growth_tracker s + 1 =? growth_interval s then hysteresis s
           else _hysteresis_tracker s) /\
  (forall n : nat,
      let before := updates self (repeat true n) in
      let after := update before true in
      _scale after = Qmax (_scale before * backoff_factor self) (min_scale self) /\
      _hysteresis_tracker after = _hysteresis_tracker before - 1 /\
      _hysteresis_tracker after = _hysteresis_tracker self - Z.of_nat n - 1 /\
      _hysteresis_tracker after <= 0) /\
  (forall bound : Z, exists n : nat,
      _hysteresis_tracker (updates self (repeat true n)) < bound).
Proof.
  intros Hle. split; [exact update_hysteresis_tracker|]. split.
  - intros n before after. subst after.
    rewrite update_scale, update_hysteresis_tracker.
    subst before. rewrite overflow_run_trackers.
    destruct (updates_config self (repeat true n)) as (-> & _ & -> & _).
    destruct (Z.leb_spec (_hysteresis_tracker self - Z.of_nat n - 1) 0); [|lia].
    repeat split; lia.
  - intros bound. exists (Z.to_nat (_hysteresis_tracker self - bound + 1)).
    rewrite overflow_run_trackers. lia.
Qed.

Lemma backoff_repeats_without_reset_witness :
  let self := update example_scaler true in
  _hysteresis_tracker self <= 1 /\
  (forall n : nat,
      let before := updates self (repeat true n) in
      let after := update before true in
      _scale after = Qmax (_scale before * backoff_factor self) (min_scale self) /\
      _hysteresis_tracker after = _hysteresis_tracker before - 1 /\
      _hysteresis_tracker after = _hysteresis_tracker self - Z.of_nat n - 1 /\
      _hysteresis_tracker after <= 0) /\
  (forall bound : Z, exists n : nat,
      _hysteresis_tracker (updates self (repeat true n)) < bound).
Proof.
  intros self.
  assert (Hle : _hysteresis_tracker self <= 1) by (vm_compute; discriminate).
  split; [exact Hle|].
  destruct (backoff_repeats_without_reset self Hle) as (_ & Hrun & Hunbounded).
  split; [exact Hrun|exact Hunbounded].
Defined.

(** ** A full hysteresis countdown *)

(** C4.  With [hysteresis = H] and the tracker at [H], the first [H-1] calls
    of a run of [update(True)] leave the scale unchanged and the [H]-th call
    sets it to [max(scale * backoff_factor, min_scale)]; every call sets the
    growth tracker to 0 and decrements the hysteresis tracker by 1. *)
Theorem backoff_after_hysteresis_overflows (self : DynamicGradScaler) :
  _hysteresis_tracker self = hysteresis self ->
  0 < hysteresis self ->
  let H := Z.to_nat (hysteresis self) in
  (forall k : nat, (k < H)%nat ->
      _scale (updates self (repeat true k)) = _scale self) /\
  _scale (updates self (repeat true H)) =
    Qmax (_scale self * backoff_factor self) (min_scale self) /\
  (forall k : nat, (k < H)%nat ->
      let before := updates self (repeat true k) in
      let after := update before true in
      _growth_tracker after = 0 /\
      _hysteresis_tracker after = _hysteresis_tracker before - 1 /\
      _hysteresis_tracker after = hysteresis self - Z.of_nat (S k)).
Proof.
  intros Hht Hpos H. split; [|split].
  - intros k Hk. apply overflow_run_scale_kept. lia.
  - destruct H as [|h] eqn:EH; [lia|].
    rewrite updates_repeat_S, update_scale, overflow_run_trackers.
    destruct (updates_config self (repeat true h)) as (-> & _ & -> & _).
    destruct (Z.leb_spec (_hysteresis_tracker self - Z.of_nat h - 1) 0); [|lia].
    rewrite overflow_run_scale_kept by lia. reflexivity.
  - intros k Hk before after. subst after.
    rewrite update_growth_tracker, update_hysteresis_tracker.
    subst before. rewrite overflow_run_trackers. repeat split; lia.
Qed.

(** A scaler that tolerates three overflow steps. *)
Definition patient_scaler : DynamicGradScaler :=
  {| device := None; _scale := 65536; min_scale := 1;
     growth_factor := 2; backoff_factor := 1 # 2;
     growth_interval := 3; hysteresis := 3;
     _growth_tracker := 0; _hysteresis_tracker := 3 |}.

Lemma patient_scaler_init :
  DynamicGradScaler_init 65536 1 2 (1 # 2) 3 3 None = Ok patient_scaler.
Proof. reflexivity. Qed.

Lemma backoff_after_hysteresis_overflows_witness :
  (forall k : nat, (k < 3)%nat ->
      _scale (updates patient_scaler (repeat true k)) = _scale patient_scaler) /\
  _scale (updates patient_scaler (repeat true 3)) =
    Qmax (_scale patient_scaler * backoff_factor patient_scaler)
         (min_scale patient_scaler) /\
  (forall k : nat, (k < 3)%nat ->
      let before := updates patient_scaler (repeat true k) in
      let after := update before true in
      _growth_tracker after = 0 /\
      _hysteresis_tracker after = _hysteresis_tracker before - 1 /\
      _hysteresis_tracker after = hysteresis patient_scaler - Z.of_nat (S k)).
Proof.
  apply (backoff_after_hysteresis_overflows patient_scaler); reflexivity.
Defined.

(** ** Healthy steps and growth *)

Lemma updates_app (self : DynamicGradScaler) (l1 l2 : list bool) :
  updates self (l1 ++ l2) = updates (updates self l1) l2.
Proof. unfold updates. apply fold_left_app. Qed.

(** Healthy steps that do not complete a growth interval only count. *)
Lemma healthy_run_counts (self : DynamicGradScaler) (n : nat) :
  0 <= _growth_tracker self ->
  _growth_tracker self + Z.of_nat n < growth_interval self ->
  let s := updates self (repeat false n) in
  _scale s = _scale self /\
  _growth_tracker s = _growth_tracker self + Z.of_nat n /\
  _hysteresis_tracker s = _hysteresis_tracker self.
Proof.
  intros Hge. induction n as [|n IH]; intros Hn s; subst s.
  - simpl. repeat split. lia.
  - destruct IH as (IHs & IHg & IHh); [lia|].
    rewrite updates_repeat_S, update_scale, update_growth_tracker,
      update_hysteresis_tracker.
    destruct (updates_config self (repeat false n)) as (_ & _ & _ & -> & _).
    rewrite IHg.
    destruct (Z.eqb_spec (_growth_tracker self + Z.of_nat n + 1)
                (growth_interval self)); [lia|].
    repeat split; [assumption|lia|assumption].
Qed.

(** A full growth interval of healthy steps, from a tracker at 0. *)
Lemma healthy_interval_grows (self : DynamicGradScaler) :
  _growth_tracker self = 0 ->
  0 < growth_interval self ->
  let s := updates self (repeat false (Z.to_nat (growth_interval self))) in
  _scale s = (_scale self * growth_factor self)%Q /\
  _growth_tracker s = 0 /\
  _hysteresis_tracker s = hysteresis self.
Proof.
  intros Hgt Hpos.
  destruct (Z.to_nat (growth_interval self)) as [|n] eqn:EN; [lia|].
  intros s; subst s.
  destruct (healthy_run_counts self n) as (Hs & Hg & Hh); [lia|lia|].
  rewrite updates_repeat_S, update_scale, update_growth_tracker,
    update_hysteresis_tracker.
  destruct (updates_config self (repeat false n)) as (_ & -> & _ & -> & ->).
  rewrite Hg, Hs.
  destruct (Z.eqb_spec (_growth_tracker self + Z.of_nat n + 1)
              (growth_interval self)); [|lia].
  repeat split.
Qed.

(** C3.  With [growth_interval = N] and the growth tracker at 0, the first
    [N-1] calls of a run of [update(False)] leave the scale unchanged, and the
    [N]-th call multiplies it by [growth_factor], resets the growth tracker to
    0 and the hysteresis tracker to [hysteresis].  The product is stored as
    it is: the growth branch applies no upper bound. *)
Theorem growth_after_interval (self : DynamicGradScaler) :
  _growth_tracker self = 0 ->
  0 < growth_interval self ->
  let N := Z.to_nat (growth_interval self) in
  (forall k : nat, (k < N)%nat ->
      let s := updates self (repeat false k) in
      _scale s = _scale self /\
      _growth_tracker s = Z.of_nat k /\
      _hysteresis_tracker s = _hysteresis_tracker self) /\
  (let s := updates self (repeat false N) in
   _scale s = (_scale self * growth_factor self)%Q /\
   _growth_tracker s = 0 /\
   _hysteresis_tracker s = hysteresis self).
Proof.
  intros Hgt Hpos N. split.
  - intros k Hk s. subst s.
    destruct (healthy_run_counts self k) as (Hs & Hg & Hh); [lia|lia|].
    rewrite Hs, Hg, Hh, Hgt. repeat split.
  - apply healthy_interval_grows; assumption.
Qed.

Lemma growth_after_interval_witness :
  (forall k : nat, (k < 2)%nat ->
      let s := updates example_scaler (repeat false k) in
      _scale s = _scale example_scaler /\
      _growth_tracker s = Z.of_nat k /\
      _hysteresis_tracker s = _hysteresis_tracker example_scaler) /\
  (let s := updates example_scaler (repeat false 2) in
   _scale s = (_scale example_scaler * growth_factor example_scaler)%Q /\
   _growth_tracker s = 0 /\
   _hysteresis_tracker s = hysteresis example_scaler).
Proof.
  apply (growth_after_interval example_scaler); reflexivity.
Defined.

(** ** Snapshot and restore *)

(** A snapshot holding the given three values. *)
Definition snapshot (scale0 : Q) (growth_tracker0 hysteresis_tracker0 : Z)
  : gmap string pyval :=
  <["scale" := Tensor scale0]>
    (<["growth_tracker" := Int growth_tracker0]>
       (<["hysteresis_tracker" := Int hysteresis_tracker0]> ∅)).

Lemma state_dict_snapshot (self : DynamicGradScaler) :
  state_dict self =
  snapshot (_scale self) (_growth_tracker self) (_hysteresis_tracker self).
Proof. reflexivity. Qed.

(** Restoring a three-field snapshot always succeeds and overwrites exactly
    the scale and the two trackers. *)
Lemma load_snapshot (self : DynamicGradScaler) (q : Q) (g h : Z) :
  load_state_dict self (snapshot q g h) =
  Ok {| device := device self; _scale := q; min_scale := min_scale self;
        growth_factor := growth_factor self; backoff_factor := backoff_factor self;
        growth_interval := growth_interval self; hysteresis := hysteresis self;
        _growth_tracker := g; _hysteresis_tracker := h |}.
Proof.
  assert (H1 : snapshot q g h !! "scale" = Some (Tensor q))
    by (unfold snapshot; now simplify_map_eq).
  assert (H2 : snapshot q g h !! "growth_tracker" = Some (Int g))
    by (unfold snapshot; now simplify_map_eq).
  assert (H3 : snapshot q g h !! "hysteresis_tracker" = Some (Int h))
    by (unfold snapshot; now simplify_map_eq).
  unfold load_state_dict, getitem. rewrite H1, H2, H3. reflexivity.
Qed.

(** C5.  The snapshot has exactly the keys [scale], [growth_tracker] and
    [hysteresis_tracker].  Loading the snapshot of a state [s] into a scaler
    gives [s]'s scale and trackers and keeps the scaler's own configuration;
    loading it into [s] itself gives [s] back.  This holds for every state,
    reachable or not. *)
Theorem state_dict_round_trip (s target : DynamicGradScaler) :
  dom (state_dict s) =
    ({["scale"; "growth_tracker"; "hysteresis_tracker"]} : gset string) /\
  load_state_dict s (state_dict s) = Ok s /\
  exists restored,
    load_state_dict target (state_dict s) = Ok restored /\
    _scale restored = _scale s /\
    _growth_tracker restored = _growth_tracker s /\
    _hysteresis_tracker restored = _hysteresis_tracker s /\
    device restored = device target /\
    min_scale restored = min_scale target /\
    growth_factor restored = growth_factor target /\
    backoff_factor restored = backoff_factor target /\
    growth_interval restored = growth_interval target /\
    hysteresis restored = hysteresis target.
Proof.
  split; [|split].
  - unfold state_dict. rewrite !dom_insert_L, dom_empty_L. set_solver.
  - rewrite state_dict_snapshot, load_snapshot. destruct s; reflexivity.
  - eexists. split; [rewrite state_dict_snapshot; apply load_snapshot|].
    simpl. repeat split.
Qed.

(** C9.  [load_state_dict] checks nothing: a snapshot with any scale and any
    tracker values is restored as it is.  When its scale is below [min_scale],
    the scale of the restored scaler is below [min_scale], and stays so over
    healthy steps that do not complete a growth interval. *)
Theorem load_state_dict_unchecked (self : DynamicGradScaler) (q : Q) (g h : Z) :
  exists restored,
    load_state_dict self (snapshot q g h) = Ok restored /\
    _scale restored = q /\
    _growth_tracker restored = g /\
    _hysteresis_tracker restored = h /\
    min_scale restored = min_scale self /\
    ((q < min_scale self)%Q ->
     (_scale restored < min_scale restored)%Q /\
     forall n : nat,
       0 <= g -> g + Z.of_nat n < growth_interval self ->
       let later := updates restored (repeat false n) in
       (_scale later < min_scale later)%Q).
Proof.
  eexists. split; [apply load_snapshot|].
  do 4 (split; [reflexivity|]).
  intros Hq. split; [exact Hq|].
  intros n Hg Hn later. subst later.
  match goal with |- context [updates ?r _] => set (restored := r) end.
  destruct (healthy_run_counts restored n) as (Hs & _); [exact Hg|exact Hn|].
  destruct (updates_config restored (repeat false n)) as (Hm & _).
  rewrite Hs, Hm. exact Hq.
Qed.

Lemma load_state_dict_unchecked_witness :
  exists restored,
    load_state_dict example_scaler (snapshot (1 # 2) 0 (-5)) = Ok restored /\
    (_scale restored < min_scale restored)%Q /\
    (_scale (update restored false) < min_scale (update restored false))%Q.
Proof.
  destruct (load_state_dict_unchecked example_scaler (1 # 2) 0 (-5))
    as (restored & Hload & _ & _ & _ & _ & Hlow).
  exists restored. split; [exact Hload|].
  destruct Hlow as (Hnow & Hlater); [reflexivity|].
  split; [exact Hnow|].
  apply (Hlater 1%nat); [discriminate|reflexivity].
Defined.

(** ** Further properties of the dynamic scaler *)

(** The trackers of a scaler in use: the growth tracker counts within the
    growth interval, the hysteresis tracker never exceeds [hysteresis]. *)
Definition in_range (self : DynamicGradScaler) : Prop :=
  0 <= _growth_tracker self < growth_interval self /\
  _hysteresis_tracker self <= hysteresis self.

Lemma update_in_range (self : DynamicGradScaler) (found_inf : bool) :
  in_range self -> in_range (update self found_inf).
Proof.
  intros ((Hlo & Hhi) & Hh). unfold in_range.
  destruct (update_config self found_inf) as (_ & _ & _ & _ & -> & ->).
  rewrite update_growth_tracker, update_hysteresis_tracker.
  destruct found_inf.
  - lia.
  - destruct (Z.eqb_spec (_growth_tracker self + 1) (growth_interval self)); lia.
Qed.

Lemma updates_in_range (self : DynamicGradScaler) (founds : list bool) :
  in_range self -> in_range (updates self founds).
Proof.
  revert self. induction founds as [|b founds IH]; intros self H; simpl.
  - exact H.
  - apply IH, update_in_range, H.
Qed.

(** X1.  Along every run of a scaler constructed with valid parameters the
    growth tracker stays in [0, growth_interval) (it is reset on reaching the
    interval, so it is never equal to it after a call) and the hysteresis
    tracker never exceeds [hysteresis]. *)
Theorem trackers_stay_in_range
    (initial_scale min_scale0 growth_factor0 backoff_factor0 : Q)
    (growth_interval0 hysteresis0 : Z) (dev : option string) :
  valid_parameters initial_scale min_scale0 growth_factor0 backoff_factor0
    growth_interval0 hysteresis0 ->
  exists self,
    DynamicGradScaler_init initial_scale min_scale0 growth_factor0 backoff_factor0
      growth_interval0 hysteresis0 dev = Ok self /\
    forall founds : list bool,
      0 <= _growth_tracker (updates self founds) < growth_interval0 /\
      _hysteresis_tracker (updates self founds) <= hysteresis0.
Proof.
  intros Hvalid. eexists. split; [apply init_valid, Hvalid|].
  intros founds.
  destruct Hvalid as (_ & _ & _ & _ & _ & _ & H7 & H8).
  match goal with |- context [updates ?s _] => set (s0 := s) end.
  assert (H0 : in_range s0) by (unfold in_range; simpl; lia).
  destruct (updates_in_range s0 founds H0) as (Hg & Hh).
  destruct (updates_config s0 founds) as (_ & _ & _ & Hgi & Hhy).
  rewrite Hgi in Hg. rewrite Hhy in Hh. exact (conj Hg Hh).
Qed.

Lemma trackers_stay_in_range_witness :
  exists self,
    DynamicGradScaler_init 65536 1 2 (1 # 2) 2 1 None = Ok self /\
    forall founds : list bool,
      0 <= _growth_tracker (updates self founds) < 2 /\
      _hysteresis_tracker (updates self founds) <= 1.
Proof.
  apply (trackers_stay_in_range 65536 1 2 (1 # 2) 2 1 None).
  unfold valid_parameters. repeat split; (reflexivity || discriminate).
Defined.

(** *** Restoring, and what follows *)

(** Healthy steps from a growth tracker at or beyond the interval: the
    comparison [==] is never met again. *)
Lemma healthy_run_past_interval (self : DynamicGradScaler) (n : nat) :
  growth_interval self <= _growth_tracker self ->
  let s := updates self (repeat false n) in
  _scale s = _scale self /\
  _growth_tracker s = _growth_tracker self + Z.of_nat n /\
  _hysteresis_tracker s = _hysteresis_tracker self.
Proof.
  intros Hge. induction n as [|n IH]; intros s; subst s.
  - simpl. repeat split. lia.
  - destruct IH as (IHs & IHg & IHh).
    rewrite updates_repeat_S, update_scale, update_growth_tracker,
      update_hysteresis_tracker.
    destruct (updates_config self (repeat false n)) as (_ & _ & _ & -> & _).
    rewrite IHg.
    destruct (Z.eqb_spec (_growth_tracker self + Z.of_nat n + 1)
                (growth_interval self)); [lia|].
    repeat split; [assumption|lia|assumption].
Qed.

(** X5.  A restored growth tracker is not checked against the growth
    interval.  When it is at or beyond the interval, healthy steps never grow
    the scale again (the tracker is compared with [==] and only moves away);
    the next overflow step resets the tracker to 0. *)
Theorem growth_stalls_past_interval (self : DynamicGradScaler) (q : Q) (g h : Z) :
  growth_interval self <= g ->
  exists restored,
    load_state_dict self (snapshot q g h) = Ok restored /\
    (forall n : nat,
        let s := updates restored (repeat false n) in
        _scale s = q /\ _growth_tracker s = g + Z.of_nat n) /\
    (forall n : nat,
        _growth_tracker (update (updates restored (repeat false n)) true) = 0).
Proof.
  intros Hge. eexists. split; [apply load_snapshot|].
  match goal with |- context [updates ?r _] => set (restored := r) end.
  split.
  - intros n.
    destruct (healthy_run_past_interval restored n) as (Hs & Hg & _); [exact Hge|].
    exact (conj Hs Hg).
  - intros n. now rewrite update_growth_tracker.
Qed.

Lemma growth_stalls_past_interval_witness :
  exists restored,
    load_state_dict example_scaler (snapshot 8 2 1) = Ok restored /\
    (forall n : nat,
        let s := updates restored (repeat false n) in
        _scale s = 8%Q /\ _growth_tracker s = 2 + Z.of_nat n) /\
    (forall n : nat,
        _growth_tracker (update (updates restored (repeat false n)) true) = 0).
Proof.
  apply (growth_stalls_past_interval example_scaler 8 2 1). simpl. lia.
Defined.

Lemma load_state_dict_outcome (self : DynamicGradScaler) (sd : gmap string pyval) :
  load_state_dict self sd =
  match load_state_dict_effect self sd with
  | (after, Ok _) => Ok after
  | (_, Raise e) => Raise e
  end.
Proof.
  unfold load_state_dict, load_state_dict_effect.
  destruct (getitem sd "scale") as [[q|z]|e]; simpl; try reflexivity.
  destruct (getitem sd "growth_tracker") as [[q'|g]|e]; simpl; try reflexivity.
  destruct (getitem sd "hysteresis_tracker") as [[q'|h]|e]; simpl; reflexivity.
Qed.

(** X6.  [load_state_dict] looks the keys up in the order [scale],
    [growth_tracker], [hysteresis_tracker] and raises [KeyError] for the first
    one missing; it is not atomic: the assignments made before the exception
    stay ([scale] missing: nothing changed; [growth_tracker] missing: the
    scale is already replaced; [hysteresis_tracker] missing: the scale and the
    growth tracker are). *)
Theorem load_state_dict_missing_key (self : DynamicGradScaler)
    (sd : gmap string pyval) (key : string) :
  load_state_dict self sd = Raise (KeyError key) ->
  sd !! key = None /\
  ((key = "scale" /\ load_state_dict_effect self sd = (self, Raise (KeyError key))) \/
   (key = "growth_tracker" /\
    exists q, sd !! "scale" = Some (Tensor q) /\
      load_state_dict_effect self sd = (set_scale self q, Raise (KeyError key))) \/
   (key = "hysteresis_tracker" /\
    exists q g, sd !! "scale" = Some (Tensor q) /\
      sd !! "growth_tracker" = Some (Int g) /\
      load_state_dict_effect self sd =
        (set_growth_tracker (set_scale self q) g, Raise (KeyError key)))).
Proof.
  rewrite load_state_dict_outcome. unfold load_state_dict_effect, getitem.
  destruct (sd !! "scale") as [[q|z]|] eqn:E1; simpl; try discriminate.
  2:{ intros [= <-]. split; [exact E1|]. left. split; reflexivity. }
  destruct (sd !! "growth_tracker") as [[q'|g]|] eqn:E2; simpl; try discriminate.
  2:{ intros [= <-]. split; [exact E2|]. right; left. split; [reflexivity|].
      exists q. split; reflexivity. }
  destruct (sd !! "hysteresis_tracker") as [[q'|h]|] eqn:E3; simpl; try discriminate.
  intros [= <-]. split; [exact E3|]. right; right. split; [reflexivity|].
  exists q, g. repeat split.
Qed.

Lemma load_state_dict_missing_key_witness :
  let sd : gmap string pyval := {["scale" := Tensor 8]} in
  load_state_dict example_scaler sd = Raise (KeyError "growth_tracker") /\
  load_state_dict_effect example_scaler sd =
    (set_scale example_scaler 8, Raise (KeyError "growth_tracker")).
Proof.
  intros sd.
  assert (H : load_state_dict example_scaler sd = Raise (KeyError "growth_tracker"))
    by reflexivity.
  split; [exact H|].
  destruct (load_state_dict_missing_key example_scaler sd "growth_tracker" H)
    as (_ & [[E _]|[(_ & q & Hq & Heff)|[E _]]]); try discriminate.
  rewrite Heff. assert (Hs : sd !! "scale" = Some (Tensor 8)) by reflexivity.
  rewrite Hs in Hq. injection Hq as <-. reflexivity.
Defined.

(** X7.  Keys other than the three are ignored by [load_state_dict]. *)
Theorem load_state_dict_ignores_other_keys (self : DynamicGradScaler)
    (sd : gmap string pyval) (key : string) (v : pyval) :
  key <> "scale" -> key <> "growth_tracker" -> key <> "hysteresis_tracker" ->
  load_state_dict self (<[key := v]> sd) = load_state_dict self sd /\
  load_state_dict self (delete key sd) = load_state_dict self sd.
Proof.
  intros H1 H2 H3. unfold load_state_dict, getitem.
  rewrite !lookup_insert_ne, !lookup_delete_ne by congruence. split; reflexivity.
Qed.

Lemma load_state_dict_ignores_other_keys_witness :
  load_state_dict example_scaler (<["step" := Int 7]> (snapshot 8 0 1))
  = load_state_dict example_scaler (snapshot 8 0 1).
Proof.
  apply (load_state_dict_ignores_other_keys example_scaler (snapshot 8 0 1)
           "step" (Int 7)); discriminate.
Defined.

(** X8.  After a successful [load_state_dict] the snapshot of the scaler
    agrees with the loaded dictionary on the three keys, and holds nothing
    else. *)
Theorem state_dict_after_load (self restored : DynamicGradScaler)
    (sd : gmap string pyval) :
  load_state_dict self sd = Ok restored ->
  state_dict restored !! "scale" = sd !! "scale" /\
  state_dict restored !! "growth_tracker" = sd !! "growth_tracker" /\
  state_dict restored !! "hysteresis_tracker" = sd !! "hysteresis_tracker" /\
  forall key, key <> "scale" -> key <> "growth_tracker" ->
              key <> "hysteresis_tracker" -> state_dict restored !! key = None.
Proof.
  unfold load_state_dict, getitem.
  destruct (sd !! "scale") as [[q|z]|] eqn:E1; simpl; try discriminate.
  destruct (sd !! "growth_tracker") as [[q'|g]|] eqn:E2; simpl; try discriminate.
  destruct (sd !! "hysteresis_tracker") as [[q'|h]|] eqn:E3; simpl; try discriminate.
  intros [= <-]. unfold state_dict. simpl.
  repeat split; try (now simplify_map_eq).
  intros key H1 H2 H3. rewrite !lookup_insert_ne by congruence. apply lookup_empty.
Qed.

Lemma state_dict_after_load_witness :
  exists restored,
    load_state_dict example_scaler (<["step" := Int 7]> (snapshot 8 0 1)) = Ok restored /\
    state_dict restored !! "scale" = Some (Tensor 8) /\
    state_dict restored !! "step" = None.
Proof.
  destruct (load_state_dict example_scaler (<["step" := Int 7]> (snapshot 8 0 1)))
    as [restored|] eqn:E; [|vm_compute in E; discriminate].
  exists restored. split; [reflexivity|].
  destruct (state_dict_after_load example_scaler restored _ E) as (H1 & _ & _ & H4).
  split.
  - rewrite H1. reflexivity.
  - apply H4; discriminate.
Defined.

(** X9.  Resuming from a checkpoint is transparent: the snapshot taken after
    any run, loaded into the scaler the run started from (same
    configuration), gives back the state after the run, and further steps
    continue as in the uninterrupted run. *)
Theorem resume_continues_the_run (self : DynamicGradScaler) (founds later : list bool) :
  exists restored,
    load_state_dict self (state_dict (updates self founds)) = Ok restored /\
    restored = updates self founds /\
    updates restored later = updates self (founds ++ later).
Proof.
  assert (H : load_state_dict self (state_dict (updates self founds))
              = Ok (updates self founds)).
  { rewrite state_dict_snapshot, load_snapshot.
    destruct (updates_config self founds) as (Hm & Hg & Hb & Hi & Hh).
    assert (Hd : device (updates self founds) = device self).
    { clear. revert self. induction founds as [|b founds IH]; intros self; simpl.
      - reflexivity.
      - rewrite IH. apply update_config. }
    rewrite <- Hm, <- Hg, <- Hb, <- Hi, <- Hh, <- Hd.
    destruct (updates self founds). reflexivity. }
  eexists. split; [exact H|]. split; [reflexivity|].
  symmetry. apply updates_app.
Qed.

(** *** The constant scaler *)

Lemma constant_calls_fixed (self : ConstantGradScaler) (calls : list scaler_call) :
  constant_calls self calls = Ok self.
Proof.
  unfold constant_calls.
  induction calls as [|c calls IH] using rev_ind; [reflexivity|].
  rewrite foldl_app. simpl. rewrite IH. destruct c; reflexivity.
Qed.

(** X10.  A [ConstantGradScaler] keeps the scale it was constructed with over
    any sequence of [update] and [load_state_dict] calls, whatever the
    dictionaries hold, and its snapshot is always empty.  Snapshots do not
    carry over between the two scalers: the dynamic scaler raises
    [KeyError('scale')] on a constant scaler's snapshot, while the constant
    scaler accepts a dynamic scaler's snapshot and ignores it. *)
Theorem constant_scaler_is_constant (initial_scale : Q) (dev : option string)
    (self : ConstantGradScaler) (calls : list scaler_call) :
  GradScaler_init initial_scale dev = Ok self ->
  (exists after, constant_calls self calls = Ok after /\
                 base_scale after = initial_scale /\
                 constant_state_dict after = ∅) /\
  (forall dynamic : DynamicGradScaler,
      load_state_dict dynamic (constant_state_dict self) = Raise (KeyError "scale") /\
      constant_load_state_dict self (state_dict dynamic) = Ok self).
Proof.
  intros Hinit. split.
  - exists self. split; [apply constant_calls_fixed|]. split; [|reflexivity].
    unfold GradScaler_init in Hinit.
    destruct (Qgtb initial_scale 0); [|discriminate].
    injection Hinit as <-. reflexivity.
  - intros dynamic. split; reflexivity.
Qed.

Lemma constant_scaler_is_constant_witness :
  exists self,
    GradScaler_init 1024 None = Ok self /\
    exists after,
      constant_calls self [CallUpdate true; CallLoadStateDict (snapshot 8 0 1);
                           CallUpdate false] = Ok after /\
      base_scale after = 1024%Q.
Proof.
  eexists. split; [reflexivity|].
  match goal with |- context [constant_calls ?s _] => set (self := s) end.
  destruct (constant_scaler_is_constant 1024 None self
              [CallUpdate true; CallLoadStateDict (snapshot 8 0 1); CallUpdate false]
              eq_refl) as ((after & H1 & H2 & _) & _).
  exists after. split; [exact H1|exact H2].
Defined.

(** ** The all-reduce step: construction and profiling marks *)


(** C6.  [DynamicGradScaler.__init__] raises exactly when a precondition is
    violated, the exception is the [AssertionError] of the failed assertion,
    and an object it returns holds the given parameters unchanged (nothing is
    defaulted).  [AllReduceDP.__init__] raises when no optimizer is given. *)
Theorem construction_fails_iff_precondition_violated
    (initial_scale min_scale0 growth_factor0 backoff_factor0 : Q)
    (growth_interval0 hysteresis0 : Z) (dev : option string) :
  let built := DynamicGradScaler_init initial_scale min_scale0 growth_factor0
                 backoff_factor0 growth_interval0 hysteresis0 dev in
  ((exists e, built = Raise e) <->
   ((initial_scale <= 0)%Q \/ (min_scale0 <= 0)%Q \/ (initial_scale < min_scale0)%Q \/
    (growth_factor0 <= 1)%Q \/
    ~ ((0 < backoff_factor0)%Q /\ (backoff_factor0 < 1)%Q) \/
    growth_interval0 <= 0 \/ hysteresis0 <= 0)) /\
  (forall e, built = Raise e -> e = AssertionError) /\
  (forall self, built = Ok self ->
     self = {| device := dev; _scale := initial_scale; min_scale := min_scale0;
               growth_factor := growth_factor0; backoff_factor := backoff_factor0;
               growth_interval := growth_interval0; hysteresis := hysteresis0;
               _growth_tracker := 0; _hysteresis_tracker := hysteresis0 |}) /\
  (forall args device0 module0 flatten0,
     dist_dp_allreduce.AllReduceDP_init args device0 module0 None flatten0
     = Raise AssertionError).
Proof.
  intros built.
  destruct (init_cases initial_scale min_scale0 growth_factor0 backoff_factor0
              growth_interval0 hysteresis0 dev) as [Hvalid | [Hraise Hbad]].
  - assert (Hok := init_valid _ _ _ _ _ _ dev Hvalid). fold built in Hok.
    destruct Hvalid as (H1 & H2 & H3 & H4 & H5 & H6 & H7 & H8).
    split; [|split; [|split]].
    + split.
      * intros [e He]. congruence.
      * intros Hbad. exfalso.
        destruct Hbad as [H|[H|[H|[H|[H|[H|H]]]]]];
          try lra; lia.
    + intros e He. congruence.
    + intros self Hself. congruence.
    + reflexivity.
  - fold built in Hraise. split; [|split; [|split]].
    + split; [intros _; exact Hbad | intros _; eauto].
    + intros e He. congruence.
    + intros self Hself. congruence.
    + reflexivity.
Qed.

Import dist_dp_allreduce.

(** With an optimizer, the constructor of the model returns an object. *)
Lemma AllReduceDP_init_with_optimizer args device0 module0 opt flatten0 :
  exists self, AllReduceDP_init args device0 module0 (Some opt) flatten0 = Ok self /\
               flatten self = flatten0 /\ optimizer self = opt.
Proof. eexists. split; [reflexivity|]. split; reflexivity. Qed.

(** ** Trace timestamps *)

(** Sample objects: two parameters, one of them without gradient. *)
Definition sample_args : Args :=
  {| rank := 0; data_group_size := 2; profiling := "tidy_profiling" |}.

Definition sample_module : list parameter :=
  [ {| para_name := "w"; para_numel := 4; para_element_size := 2;
       para_grad_is_None := false |};
    {| para_name := "b"; para_numel := 2; para_element_size := 2;
       para_grad_is_None := true |} ].

(** [AllReduceDP(sample_args, None, sample_module, TorchOptimizer 0, flatten)]. *)
Definition sample_dp (flatten0 : bool) : AllReduceDP :=
  {| flatten := flatten0; global_rank := 0; dp_group_size := 2;
     enable_tidy_profiling := true;
     module := sample_module;
     flatten_para := if flatten0 then Some (flatten_params sample_module) else None;
     optimizer := TorchOptimizer 0;
     init_event := None; init_time_stamp := None;
     allreduce_gradients_start_event :=
       if flatten0 then Some flat_start_event else None;
     allreduce_gradients_start_events :=
       if flatten0 then None else Some (events_by_name start_event_of sample_module);
     allreduce_gradients_end_events :=
       if flatten0 then None else Some (events_by_name end_event_of sample_module);
     optimizer_step_start_event := Some step_start_event |}.

Lemma sample_dp_init (flatten0 : bool) :
  AllReduceDP_init sample_args None sample_module (Some (TorchOptimizer 0)) flatten0
  = Ok (sample_dp flatten0).
Proof. destruct flatten0; reflexivity. Qed.

(** A clock on which any two events are one millisecond apart. *)
Definition one_ms_apart (e1 e2 : event) : result Q := Ok 1%Q.

(** C8 fails as stated: with the reference at timestamp 0 and an event one
    millisecond later, [get_ts] returns 1000, not 0 + 1. *)
Lemma get_ts_is_not_reference_plus_elapsed :
  let self := set_time_stamp (sample_dp true) 0 (other_event 0) in
  init_time_stamp self = Some 0%Q /\
  init_event self = Some (other_event 0) /\
  one_ms_apart (other_event 0) allreduce_grad_ready_event = Ok 1%Q /\
  exists t, get_ts one_ms_apart self allreduce_grad_ready_event = Ok t /\
            (t == 1000)%Q /\ ~ (t == 0 + 1)%Q.
Proof.
  intros self. repeat split.
  exists (0 + 1 * 1000)%Q. repeat split. discriminate.
Qed.

(** C8, amended.  The timestamp of an event is the reference timestamp plus
    1000 times the elapsed time from the reference event to it (milliseconds
    to microseconds); in particular right after [set_time_stamp]. *)
Theorem get_ts_reference_plus_scaled_elapsed
    (elapsed_time : event -> event -> result Q) (self : AllReduceDP)
    (reference x : event) (reference_timestamp d : Q) :
  init_event self = Some reference ->
  init_time_stamp self = Some reference_timestamp ->
  elapsed_time reference x = Ok d ->
  get_ts elapsed_time self x = Ok (reference_timestamp + d * 1000)%Q /\
  forall other : AllReduceDP,
    get_ts elapsed_time (set_time_stamp other reference_timestamp reference) x
    = Ok (reference_timestamp + d * 1000)%Q.
Proof.
  intros He Ht Hd. unfold get_ts. split.
  - rewrite He, Ht. simpl. rewrite Hd. reflexivity.
  - intros other. simpl. rewrite Hd. reflexivity.
Qed.

Lemma get_ts_reference_plus_scaled_elapsed_witness :
  get_ts one_ms_apart (set_time_stamp (sample_dp true) 0 (other_event 0))
    allreduce_grad_ready_event = Ok (0 + 1 * 1000)%Q.
Proof.
  apply (get_ts_reference_plus_scaled_elapsed one_ms_apart
           (set_time_stamp (sample_dp true) 0 (other_event 0))
           (other_event 0) allreduce_grad_ready_event 0 1); reflexivity.
Defined.

(** ** Which calls the methods issue *)

Lemma host_bind_run {A B : Type} (m : host A) (k : A -> host B) (log : list call) :
  (m ≫= k) log =
  match m log with
  | (Ok a, log') => k a log'
  | (Raise e, log') => (Raise e, log')
  end.
Proof. reflexivity. Qed.

(** A method that only extends the log, with calls on stream [s]. *)
Definition issues_on (s : stream) {A : Type} (m : host A) : Prop :=
  forall log, exists X, snd (m log) = log ++ X /\ Forall (fun c => stream_of c = s) X.

Lemma issues_on_ret (s : stream) {A : Type} (a : A) : issues_on s (mret a).
Proof. intros log. exists []. split; [symmetry; apply app_nil_r|constructor]. Qed.

Lemma issues_on_lift (s : stream) {A : Type} (r : result A) : issues_on s (lift r).
Proof. intros log. exists []. split; [symmetry; apply app_nil_r|constructor]. Qed.

Lemma issues_on_issue (c : call) : issues_on (stream_of c) (issue c).
Proof. intros log. exists [c]. split; [reflexivity|repeat constructor]. Qed.

Lemma issues_on_bind (s : stream) {A B : Type} (m : host A) (k : A -> host B) :
  issues_on s m -> (forall a, issues_on s (k a)) -> issues_on s (m ≫= k).
Proof.
  intros Hm Hk log. rewrite host_bind_run.
  destruct (Hm log) as (X & HX & HXs).
  destruct (m log) as [[a|e] log'] eqn:E; simpl in HX; subst log'.
  - destruct (Hk a (log ++ X)) as (Y & HY & HYs).
    exists (X ++ Y). split; [rewrite HY; apply eq_sym, app_assoc|].
    apply Forall_app; split; assumption.
  - exists X. split; [reflexivity|assumption].
Qed.

Lemma issues_on_for_each (s : stream) {A : Type} (l : list A) (body : A -> host unit) :
  (forall x, issues_on s (body x)) -> issues_on s (for_each l body).
Proof.
  intros Hbody. induction l as [|x l IH]; simpl.
  - apply issues_on_ret.
  - apply issues_on_bind; [apply Hbody|intros _; exact IH].
Qed.

Create HintDb issues.
#[local] Hint Resolve issues_on_ret issues_on_lift issues_on_for_each : issues.
#[local] Hint Extern 1 (issues_on _ (_ ≫= _)) =>
  apply issues_on_bind; [|intros ?] : issues.
#[local] Hint Extern 1 (issues_on dp_comm_stream (record_event dp_comm_stream ?e)) =>
  exact (issues_on_issue (RecordEvent dp_comm_stream e)) : issues.
#[local] Hint Extern 1 (issues_on dp_comm_stream (wait_event dp_comm_stream ?e)) =>
  exact (issues_on_issue (WaitEvent dp_comm_stream e)) : issues.
#[local] Hint Extern 1 (issues_on dp_comm_stream (issue (Launch dp_comm_stream ?k))) =>
  exact (issues_on_issue (Launch dp_comm_stream k)) : issues.
#[local] Hint Extern 1
  (issues_on torch_optim_comp_stream (record_event torch_optim_comp_stream ?e)) =>
  exact (issues_on_issue (RecordEvent torch_optim_comp_stream e)) : issues.
#[local] Hint Extern 1
  (issues_on torch_optim_comp_stream (issue (Launch torch_optim_comp_stream ?k))) =>
  exact (issues_on_issue (Launch torch_optim_comp_stream k)) : issues.

Lemma profile_mark_allreduce_start_issues (self : AllReduceDP) (name : option string) :
  issues_on dp_comm_stream (profile_mark_allreduce_start self name).
Proof.
  unfold profile_mark_allreduce_start.
  destruct (enable_tidy_profiling self); [|auto with issues].
  destruct name; auto 10 with issues.
Qed.

Lemma profile_mark_allreduce_end_issues (self : AllReduceDP) (name : option string) :
  issues_on dp_comm_stream (profile_mark_allreduce_end self name).
Proof.
  unfold profile_mark_allreduce_end.
  destruct (enable_tidy_profiling self && truthy name); auto 10 with issues.
Qed.

Lemma profile_mark_optimizer_step_start_issues (self : AllReduceDP) :
  issues_on torch_optim_comp_stream (profile_mark_optimizer_step_start self).
Proof.
  unfold profile_mark_optimizer_step_start.
  destruct (enable_tidy_profiling self); auto 10 with issues.
Qed.

#[local] Hint Resolve profile_mark_allreduce_start_issues
  profile_mark_allreduce_end_issues profile_mark_optimizer_step_start_issues : issues.

(** The calls of [_allreduce_gradients]: calls on the communication stream,
    closed (unless a profiling mark raised) by the record of
    [allreduce_grad_ready_event]. *)
Lemma allreduce_gradients_shape (self : AllReduceDP) (log : list call) :
  exists X,
    Forall (fun c => stream_of c = dp_comm_stream) X /\
    ((exists e, _allreduce_gradients self log = (Raise e, log ++ X)) \/
     _allreduce_gradients self log =
       (Ok tt, log ++ X ++ [RecordEvent dp_comm_stream allreduce_grad_ready_event])).
Proof.
  unfold _allreduce_gradients.
  match goal with
  | |- context [wait_event dp_comm_stream backward_ready_event ≫= ?k] =>
      match k with
      | (fun _ => ?body ≫= _) => set (reductions := body)
      end
  end.
  assert (Hred : issues_on dp_comm_stream reductions).
  { subst reductions.
    destruct (flatten self); auto 20 with issues.
    apply issues_on_for_each. intros para.
    destruct (para_grad_is_None para); auto 20 with issues. }
  destruct (Hred (log ++ [WaitEvent dp_comm_stream backward_ready_event]))
    as (X & HX & HXs).
  exists (WaitEvent dp_comm_stream backward_ready_event :: X).
  split; [constructor; [reflexivity|exact HXs]|].
  rewrite host_bind_run.
  change (wait_event dp_comm_stream backward_ready_event log)
    with (Ok tt, log ++ [WaitEvent dp_comm_stream backward_ready_event]).
  cbv iota beta. rewrite host_bind_run.
  destruct (reductions (log ++ [WaitEvent dp_comm_stream backward_ready_event]))
    as [[[]|e] log1] eqn:E; simpl in HX; subst log1.
  - right. unfold record_event, issue. rewrite <- !app_assoc. reflexivity.
  - left. exists e. rewrite <- !app_assoc. reflexivity.
Qed.

(** The shape of the calls of one [optimizer_step], whether it returns or
    raises: calls on the communication stream, then (unless the reductions
    raised) the record of [allreduce_grad_ready_event] on the communication
    stream, the wait for it on the compute stream, and calls on the compute
    stream. *)
Lemma optimizer_step_shape (self : AllReduceDP) (log : list call) :
  exists X,
    Forall (fun c => stream_of c = dp_comm_stream) X /\
    (snd (optimizer_step self log) = log ++ X \/
     exists Y,
       snd (optimizer_step self log) =
         log ++ X ++ RecordEvent dp_comm_stream allreduce_grad_ready_event
                  :: WaitEvent torch_optim_comp_stream allreduce_grad_ready_event
                  :: Y /\
       Forall (fun c => stream_of c = torch_optim_comp_stream) Y).
Proof.
  unfold optimizer_step.
  set (rest := profile_mark_optimizer_step_start self;;
               issue (Launch torch_optim_comp_stream optimizer_update);;
               record_event torch_optim_comp_stream optimizer_step_ready_event).
  assert (Hrest : issues_on torch_optim_comp_stream rest)
    by (subst rest; auto 20 with issues).
  destruct (allreduce_gradients_shape self log) as (X & HXs & [[e HX]|HX]);
    exists X; (split; [exact HXs|]); rewrite host_bind_run, HX.
  - left. reflexivity.
  - right. rewrite host_bind_run. unfold wait_event, issue at 1.
    destruct (Hrest ((log ++ X ++
                [RecordEvent dp_comm_stream allreduce_grad_ready_event]) ++
                [WaitEvent torch_optim_comp_stream allreduce_grad_ready_event]))
      as (Y & HY & HYs).
    exists Y. split; [|exact HYs].
    rewrite HY. rewrite <- !app_assoc. reflexivity.
Qed.

(** ** Queues built by the host *)

Definition boot_driver : driver := drv (boot []).

Lemma enqueue_all_cons (c : call) (cs : list call) (d : driver) :
  enqueue_all (c :: cs) d = enqueue_all cs (enqueue c d).
Proof. reflexivity. Qed.

Lemma enqueue_all_app (cs1 cs2 : list call) (d : driver) :
  enqueue_all (cs1 ++ cs2) d = enqueue_all cs2 (enqueue_all cs1 d).
Proof. unfold enqueue_all. apply foldl_app. Qed.

(** A call appends one operation to the queue of its stream and leaves the
    other queue alone. *)
Lemma enqueue_queue (c : call) (d : driver) (s : stream) :
  queue (enqueue c d) s =
  if decide (stream_of c = s)
  then queue d s ++ [match c with
                     | WaitEvent _ e => OpWait e (gen d e)
                     | RecordEvent _ e => OpRecord e (S (gen d e))
                     | Launch _ k => OpKernel k
                     end]
  else queue d s.
Proof.
  destruct c as [s0 e|s0 e|s0 k]; simpl; destruct (decide (s0 = s)) as [->|Hne];
    first [apply fn_lookup_insert | now apply fn_lookup_insert_ne].
Qed.

Lemma enqueue_prefix (c : call) (d : driver) (s : stream) :
  queue d s `prefix_of` queue (enqueue c d) s.
Proof.
  rewrite enqueue_queue. destruct (decide (stream_of c = s)); [|reflexivity].
  apply prefix_app_r. reflexivity.
Qed.

Lemma enqueue_all_prefix (cs : list call) (d : driver) (s : stream) :
  queue d s `prefix_of` queue (enqueue_all cs d) s.
Proof.
  revert d. induction cs as [|c cs IH]; intros d; [reflexivity|].
  rewrite enqueue_all_cons. etrans; [apply enqueue_prefix|apply IH].
Qed.

Lemma calls_on_cons (s : stream) (c : call) (cs : list call) :
  calls_on s (c :: cs) =
  if decide (stream_of c = s) then c :: calls_on s cs else calls_on s cs.
Proof. unfold calls_on. rewrite filter_cons. reflexivity. Qed.

Lemma calls_on_app (s : stream) (cs1 cs2 : list call) :
  calls_on s (cs1 ++ cs2) = calls_on s cs1 ++ calls_on s cs2.
Proof. apply filter_app. Qed.

Lemma calls_on_same (s : stream) (cs : list call) :
  Forall (fun c => stream_of c = s) cs -> calls_on s cs = cs.
Proof.
  induction 1 as [|c cs Hc _ IH]; [reflexivity|].
  rewrite calls_on_cons, decide_True by exact Hc. now rewrite IH.
Qed.

Lemma calls_on_other (s s' : stream) (cs : list call) :
  s' <> s -> Forall (fun c => stream_of c = s') cs -> calls_on s cs = [].
Proof.
  intros Hne. induction 1 as [|c cs Hc _ IH]; [reflexivity|].
  rewrite calls_on_cons, decide_False by congruence. exact IH.
Qed.

(** The [i]-th call on a stream is the [i]-th operation of its queue. *)
Lemma enqueue_all_length (cs : list call) (d : driver) (s : stream) :
  length (queue (enqueue_all cs d) s) =
  (length (queue d s) + length (calls_on s cs))%nat.
Proof.
  revert d. induction cs as [|c cs IH]; intros d.
  - simpl. lia.
  - rewrite enqueue_all_cons, IH, enqueue_queue, calls_on_cons.
    destruct (decide (stream_of c = s)); [|reflexivity].
    rewrite length_app. simpl. lia.
Qed.

(** Generations: every record operation in a queue carries a generation the
    host has already reached, and no two record operations of one event carry
    the same generation. *)
Definition records_bounded (d : driver) : Prop :=
  forall s i e g, queue d s !! i = Some (OpRecord e g) -> (g <= gen d e)%nat.

Definition records_unique (d : driver) : Prop :=
  forall s i s' i' e g,
    queue d s !! i = Some (OpRecord e g) ->
    queue d s' !! i' = Some (OpRecord e g) ->
    s = s' /\ i = i'.

Lemma enqueue_lookup (c : call) (d : driver) (s : stream) (i : nat) (o : op) :
  queue (enqueue c d) s !! i = Some o ->
  queue d s !! i = Some o \/
  (stream_of c = s /\ i = length (queue d s) /\
   o = match c with
       | WaitEvent _ e => OpWait e (gen d e)
       | RecordEvent _ e => OpRecord e (S (gen d e))
       | Launch _ k => OpKernel k
       end).
Proof.
  rewrite enqueue_queue. destruct (decide (stream_of c = s)) as [Hs|Hs]; [|now left].
  intros H. apply lookup_app_Some in H as [H|[Hlen H]]; [now left|right].
  apply list_lookup_singleton_Some in H as [Hi Ho].
  split; [exact Hs|]. split; [lia|]. now symmetry.
Qed.

Lemma gen_enqueue_mono (c : call) (d : driver) (e : event) :
  (gen d e <= gen (enqueue c d) e)%nat.
Proof.
  destruct c as [s0 e0|s0 e0|s0 k]; simpl; try lia.
  destruct (decide (e0 = e)) as [->|Hne].
  - rewrite fn_lookup_insert. lia.
  - rewrite fn_lookup_insert_ne by exact Hne. lia.
Qed.

Lemma enqueue_records_bounded (c : call) (d : driver) :
  records_bounded d -> records_bounded (enqueue c d).
Proof.
  intros Hb s i e g H. apply enqueue_lookup in H as [H|(Hs & Hi & Ho)].
  - etrans; [exact (Hb _ _ _ _ H)|apply gen_enqueue_mono].
  - destruct c as [s0 e0|s0 e0|s0 k]; try discriminate.
    injection Ho as -> ->. simpl. rewrite fn_lookup_insert. lia.
Qed.

Lemma enqueue_records_unique (c : call) (d : driver) :
  records_bounded d -> records_unique d -> records_unique (enqueue c d).
Proof.
  intros Hb Hu s i s' i' e g H H'.
  apply enqueue_lookup in H as [H|(Hs & Hi & Ho)];
    apply enqueue_lookup in H' as [H'|(Hs' & Hi' & Ho')].
  - exact (Hu _ _ _ _ _ _ H H').
  - destruct c as [s0 e0|s0 e0|s0 k]; try discriminate.
    injection Ho' as -> ->. apply Hb in H. lia.
  - destruct c as [s0 e0|s0 e0|s0 k]; try discriminate.
    injection Ho as -> ->. apply Hb in H'. lia.
  - split; congruence.
Qed.

Lemma enqueue_all_records (cs : list call) (d : driver) :
  records_bounded d -> records_unique d ->
  records_bounded (enqueue_all cs d) /\ records_unique (enqueue_all cs d).
Proof.
  revert d. induction cs as [|c cs IH]; intros d Hb Hu; [now split|].
  rewrite enqueue_all_cons. apply IH.
  - now apply enqueue_records_bounded.
  - now apply enqueue_records_unique.
Qed.

Lemma boot_driver_records :
  records_bounded boot_driver /\ records_unique boot_driver.
Proof. split; intros s i; intros; discriminate. Qed.

(** A record immediately followed by a wait for the same event: the wait
    captures the generation of that record, which is not 0. *)
Lemma record_then_wait_queues (A C : list call) (s1 s2 : stream) (e : event) :
  let program := A ++ RecordEvent s1 e :: WaitEvent s2 e :: C in
  let final := enqueue_all program boot_driver in
  let r := length (calls_on s1 A) in
  let w := length (calls_on s2 (A ++ [RecordEvent s1 e])) in
  exists g,
    g <> 0%nat /\
    queue final s1 !! r = Some (OpRecord e g) /\
    queue final s2 !! w = Some (OpWait e g).
Proof.
  intros program final r w. subst program final.
  rewrite enqueue_all_app, !enqueue_all_cons.
  set (dA := enqueue_all A boot_driver).
  set (d1 := enqueue (RecordEvent s1 e) dA).
  set (d2 := enqueue (WaitEvent s2 e) d1).
  assert (HlenA : forall s, length (queue dA s) = length (calls_on s A)).
  { intros s. unfold dA. rewrite enqueue_all_length. reflexivity. }
  exists (S (gen dA e)). split; [lia|]. split.
  - eapply prefix_lookup_Some; [|apply enqueue_all_prefix].
    eapply prefix_lookup_Some; [|apply enqueue_prefix].
    unfold d1. rewrite enqueue_queue, decide_True by reflexivity.
    subst r. rewrite <- HlenA. apply list_lookup_middle. reflexivity.
  - eapply prefix_lookup_Some; [|apply enqueue_all_prefix].
    unfold d2. rewrite enqueue_queue, decide_True by reflexivity.
    assert (Hg : gen d1 e = S (gen dA e)) by (simpl; apply fn_lookup_insert).
    rewrite Hg.
    assert (Hw : w = length (queue d1 s2)).
    { subst w. change d1 with (enqueue_all [RecordEvent s1 e] dA).
      unfold dA. rewrite <- enqueue_all_app, enqueue_all_length. reflexivity. }
    rewrite Hw. apply list_lookup_middle. reflexivity.
Qed.

(** ** Interleavings of host and streams *)

Section Interleavings.

Variable program : list call.

(** The queues once the host has issued the whole program. *)
Definition final_driver : driver := enqueue_all program boot_driver.

(** What holds in every reachable state: the queues are initial segments of
    the final queues, and a completed record is a record operation that its
    stream has passed. *)
Record consistent (m : machine) : Prop := mkConsistent {
  consistent_final : enqueue_all (pending m) (drv m) = final_driver;
  consistent_fired :
    forall e g, (e, g) ∈ fired (dev m) ->
      exists s i, queue final_driver s !! i = Some (OpRecord e g) /\
                  (i < pc (dev m) s)%nat
}.

Lemma consistent_lookup (m : machine) (s : stream) (i : nat) (o : op) :
  consistent m ->
  queue (drv m) s !! i = Some o -> queue final_driver s !! i = Some o.
Proof.
  intros [Hfin _] H. rewrite <- Hfin.
  eapply prefix_lookup_Some; [exact H|apply enqueue_all_prefix].
Qed.

Lemma boot_consistent : consistent (boot program).
Proof.
  split; [reflexivity|]. simpl. intros e g H. now apply elem_of_nil in H.
Qed.

Lemma pc_step_mono (a : action) (m m' : machine) (s : stream) :
  step_by a m = Some m' -> (pc (dev m) s <= pc (dev m') s)%nat.
Proof.
  destruct a as [|s0|s0]; simpl.
  - destruct (pending m); [discriminate|]. intros [= <-]. reflexivity.
  - destruct (busy (dev m) s0); [discriminate|].
    destruct (queue (drv m) s0 !! pc (dev m) s0); [|discriminate].
    destruct (ready (dev m) o); [|discriminate]. intros [= <-]. reflexivity.
  - destruct (busy (dev m) s0); [|discriminate].
    destruct (queue (drv m) s0 !! pc (dev m) s0); [|discriminate].
    intros [= <-]. simpl. destruct (decide (s0 = s)) as [->|Hne].
    + rewrite fn_lookup_insert. lia.
    + rewrite fn_lookup_insert_ne by exact Hne. lia.
Qed.

Lemma step_consistent (m m' : machine) :
  step m m' -> consistent m -> consistent m'.
Proof.
  intros [a Ha] Hm. assert (Hmono := fun s => pc_step_mono a m m' s Ha).
  destruct Hm as [Hfin Hfired]. destruct a as [|s0|s0]; simpl in Ha.
  - destruct (pending m) as [|c cs] eqn:Ep; [discriminate|].
    injection Ha as <-. split; simpl; [|exact Hfired].
    rewrite <- Hfin. apply eq_sym, enqueue_all_cons.
  - destruct (busy (dev m) s0); [discriminate|].
    destruct (queue (drv m) s0 !! pc (dev m) s0); [|discriminate].
    destruct (ready (dev m) o); [|discriminate].
    injection Ha as <-. split; simpl; assumption.
  - destruct (busy (dev m) s0); [|discriminate].
    destruct (queue (drv m) s0 !! pc (dev m) s0) as [o|] eqn:Eo; [|discriminate].
    assert (Hfo := consistent_lookup m s0 _ o (mkConsistent m Hfin Hfired) Eo).
    injection Ha as <-. split; simpl; [exact Hfin|].
    simpl in Hmono. intros e g Hin.
    assert (Hold : (e, g) ∈ fired (dev m) ->
              exists s i, queue final_driver s !! i = Some (OpRecord e g) /\
                (i < <[s0 := S (pc (dev m) s0)]> (pc (dev m)) s)%nat).
    { intros H. destruct (Hfired e g H) as (s & i & Hq & Hi).
      exists s, i. split; [exact Hq|]. specialize (Hmono s). lia. }
    destruct o as [e0 g0|e0 g0|k]; try (exact (Hold Hin)).
    apply elem_of_cons in Hin as [[= -> ->]|Hin]; [|exact (Hold Hin)].
    exists s0, (pc (dev m) s0). split; [exact Hfo|].
    rewrite fn_lookup_insert. lia.
Qed.

Lemma reachable_consistent (m : machine) : reachable program m -> consistent m.
Proof.
  revert m. apply (rtc_ind_r (fun m => consistent m) (boot program)).
  - apply boot_consistent.
  - intros m m' _ Hstep IH. eapply step_consistent; eassumption.
Qed.

(** A wait that captured the generation of a record: in every reachable
    state, once the wait has begun the record has completed. *)
Section Ordering.

Variables (s1 s2 : stream) (e : event) (g r w : nat).
Hypothesis recorded : g <> 0%nat.
Hypothesis record_at : queue final_driver s1 !! r = Some (OpRecord e g).
Hypothesis wait_at : queue final_driver s2 !! w = Some (OpWait e g).

Lemma step_waits (m m' : machine) :
  step m m' -> consistent m ->
  (begun m s2 w -> completed m s1 r) ->
  begun m' s2 w -> completed m' s1 r.
Proof.
  intros [a Ha] Hm IH Hb. unfold begun, completed in *.
  assert (Hmono := pc_step_mono a m m' s1 Ha).
  destruct a as [|s0|s0]; simpl in Ha.
  - destruct (pending m); [discriminate|]. injection Ha as <-.
    simpl in *. auto.
  - destruct (busy (dev m) s0) eqn:Eb; [discriminate|].
    destruct (queue (drv m) s0 !! pc (dev m) s0) as [o|] eqn:Eo; [|discriminate].
    destruct (ready (dev m) o) eqn:Er; [|discriminate].
    injection Ha as <-. simpl in *.
    destruct (decide (s0 = s2)) as [->|Hne].
    + destruct Hb as [Hb|[Hw _]]; [auto|]. subst w.
      apply (consistent_lookup m _ _ _ Hm) in Eo.
      rewrite wait_at in Eo. injection Eo as <-. simpl in Er.
      apply orb_true_iff in Er as [Er|Er]; apply bool_decide_eq_true in Er;
        [contradiction|].
      destruct (consistent_fired m Hm e g Er) as (s & i & Hq & Hi).
      destruct (proj2 (enqueue_all_records program boot_driver
                         (proj1 boot_driver_records) (proj2 boot_driver_records))
                  _ _ _ _ _ _ Hq record_at) as [-> ->].
      exact Hi.
    + rewrite fn_lookup_insert_ne in Hb by exact Hne. auto.
  - destruct (busy (dev m) s0) eqn:Eb; [|discriminate].
    destruct (queue (drv m) s0 !! pc (dev m) s0); [|discriminate].
    injection Ha as <-. simpl in *.
    assert (Hold : (w < pc (dev m) s2)%nat \/
                   w = pc (dev m) s2 /\ busy (dev m) s2 = true).
    { destruct (decide (s0 = s2)) as [->|Hne].
      - rewrite !fn_lookup_insert in Hb.
        destruct Hb as [Hb|[_ Hb]]; [|discriminate].
        destruct (decide (w = pc (dev m) s2)); [right; auto|left; lia].
      - rewrite !fn_lookup_insert_ne in Hb by exact Hne. exact Hb. }
    specialize (IH Hold). lia.
Qed.

Lemma reachable_waits (m : machine) :
  reachable program m -> begun m s2 w -> completed m s1 r.
Proof.
  revert m.
  apply (rtc_ind_r (fun m => begun m s2 w -> completed m s1 r) (boot program)).
  - unfold begun, completed. simpl. intros [H|[_ H]]; [lia|discriminate].
  - intros m m' Hreach Hstep IH.
    eapply step_waits; [exact Hstep|now apply reachable_consistent|exact IH].
Qed.

End Ordering.

End Interleavings.

(** Within a stream, operations run in queue order. *)
Lemma begun_later_completed_earlier (m : machine) (s : stream) (i j : nat) :
  (i < j)%nat -> begun m s j -> completed m s i.
Proof. unfold begun, completed. lia. Qed.

Lemma completed_begun (m : machine) (s : stream) (i : nat) :
  completed m s i -> begun m s i.
Proof. unfold begun, completed. lia. Qed.

(** A schedule that runs is an interleaving. *)
Lemma run_rtc (schedule : list action) (m m' : machine) :
  run schedule m = Some m' -> rtc step m m'.
Proof.
  revert m. induction schedule as [|a schedule IH]; simpl; intros m H.
  - injection H as <-. apply rtc_refl.
  - destruct (step_by a m) as [m1|] eqn:E; [|discriminate].
    eapply rtc_l; [exists a; exact E|apply IH, H].
Qed.

(** ** The optimizer update waits for the reductions *)

Lemma lookup_after_prefix {A : Type} (l1 l2 : list A) (i : nat) (x : A) :
  (length l1 <= i)%nat -> (l1 ++ l2) !! i = Some x ->
  l2 !! (i - length l1)%nat = Some x.
Proof. intros Hi H. now rewrite lookup_app_r in H by exact Hi. Qed.

(** C7.  Take any [optimizer_step] call, issued after any earlier calls
    [before] and followed by any later calls [after].  Among the calls of
    this step, every reduction on the communication stream comes before the
    record of [allreduce_grad_ready_event] on that stream, and the optimizer
    update on the compute stream comes after the wait for that event.  In
    every state reachable by interleaving host, communication stream and
    compute stream, once the wait has begun the record has completed; hence
    once the optimizer update has begun, the reduction has completed. *)
Theorem optimizer_update_waits_for_reductions
    (self : AllReduceDP) (before after : list call) (m : machine)
    (i j : nat) (buf : buffer) :
  let issued := snd (optimizer_step self before) in
  reachable (issued ++ after) m ->
  (length (calls_on dp_comm_stream before) <= i)%nat ->
  calls_on dp_comm_stream issued !! i
    = Some (Launch dp_comm_stream (all_reduce buf)) ->
  (length (calls_on torch_optim_comp_stream before) <= j)%nat ->
  calls_on torch_optim_comp_stream issued !! j
    = Some (Launch torch_optim_comp_stream optimizer_update) ->
  exists r w : nat,
    (i < r)%nat /\ (w < j)%nat /\
    calls_on dp_comm_stream issued !! r
      = Some (RecordEvent dp_comm_stream allreduce_grad_ready_event) /\
    calls_on torch_optim_comp_stream issued !! w
      = Some (WaitEvent torch_optim_comp_stream allreduce_grad_ready_event) /\
    (begun m torch_optim_comp_stream w -> completed m dp_comm_stream r) /\
    (begun m torch_optim_comp_stream j -> completed m dp_comm_stream i).
Proof.
  intros issued Hreach Hi Hred Hj Hupd.
  destruct (optimizer_step_shape self before) as (X & HX & [Hshape|(Y & Hshape & HY)]);
    fold issued in Hshape.
  { (* the step raised before the wait: it launched no optimizer update *)
    exfalso. rewrite Hshape, calls_on_app in Hupd.
    rewrite (calls_on_other _ dp_comm_stream X) in Hupd by (discriminate || exact HX).
    rewrite app_nil_r in Hupd. apply lookup_lt_Some in Hupd. lia. }
  set (cb := calls_on dp_comm_stream before) in *.
  set (pb := calls_on torch_optim_comp_stream before) in *.
  assert (Hcomm : calls_on dp_comm_stream issued =
                  cb ++ X ++ [RecordEvent dp_comm_stream allreduce_grad_ready_event]).
  { rewrite Hshape, !calls_on_app. fold cb. rewrite (calls_on_same _ X HX).
    rewrite !calls_on_cons, decide_True, decide_False by (reflexivity || discriminate).
    rewrite (calls_on_other _ torch_optim_comp_stream Y) by (discriminate || exact HY).
    reflexivity. }
  assert (Hcomp : calls_on torch_optim_comp_stream issued =
                  pb ++ WaitEvent torch_optim_comp_stream allreduce_grad_ready_event :: Y).
  { rewrite Hshape, !calls_on_app. fold pb.
    rewrite (calls_on_other _ dp_comm_stream X) by (discriminate || exact HX).
    rewrite !calls_on_cons, decide_False, decide_True by (reflexivity || discriminate).
    rewrite (calls_on_same _ Y HY). reflexivity. }
  exists (length cb + length X)%nat, (length pb).
  assert (Hir : (i < length cb + length X)%nat).
  { rewrite Hcomm in Hred. apply lookup_after_prefix in Hred; [|exact Hi].
    destruct (decide (i - length cb < length X)%nat) as [Hlt|Hge]; [lia|].
    rewrite lookup_app_r in Hred by lia.
    apply list_lookup_singleton_Some in Hred as [_ Hred]. discriminate. }
  assert (Hwj : (length pb < j)%nat).
  { rewrite Hcomp in Hupd. apply lookup_after_prefix in Hupd; [|exact Hj].
    destruct (decide (j = length pb)) as [->|Hne]; [|lia].
    rewrite Nat.sub_diag in Hupd. discriminate. }
  assert (Hwait : begun m torch_optim_comp_stream (length pb) ->
                  completed m dp_comm_stream (length cb + length X)).
  { assert (Hprog : issued ++ after =
              (before ++ X) ++
              RecordEvent dp_comm_stream allreduce_grad_ready_event
              :: WaitEvent torch_optim_comp_stream allreduce_grad_ready_event
              :: (Y ++ after)).
    { rewrite Hshape, <- !app_assoc. reflexivity. }
    destruct (record_then_wait_queues (before ++ X) (Y ++ after)
                dp_comm_stream torch_optim_comp_stream allreduce_grad_ready_event)
      as (g & Hg & Hrec & Hw).
    rewrite <- Hprog in Hrec, Hw.
    rewrite calls_on_app in Hrec. fold cb in Hrec.
    rewrite (calls_on_same _ X HX), length_app in Hrec.
    rewrite !calls_on_app in Hw. fold pb in Hw.
    rewrite (calls_on_other _ dp_comm_stream X) in Hw by (discriminate || exact HX).
    rewrite calls_on_cons, decide_False in Hw by discriminate.
    simpl in Hw. rewrite !app_nil_r in Hw.
    exact (reachable_waits (issued ++ after) _ _ _ g _ _ Hg Hrec Hw m Hreach). }
  split; [exact Hir|]. split; [exact Hwj|]. split; [|split; [|split]].
  - rewrite Hcomm, app_assoc. apply list_lookup_middle. now rewrite length_app.
  - rewrite Hcomp. now apply list_lookup_middle.
  - exact Hwait.
  - intros Hb. apply (begun_later_completed_earlier _ _ _ _ Hwj) in Hb.
    apply completed_begun, Hwait in Hb. unfold completed in *. lia.
Qed.

(** An interleaving of one step in flattened mode with profiling: the
    communication stream is let run as far as it can before the compute
    stream is scheduled at all, then the compute stream runs until the
    optimizer update has begun. *)
Definition sample_schedule : list action :=
  repeat HostIssue 8 ++
  [ Begin dp_comm_stream; Finish dp_comm_stream;     (* wait backward_ready *)
    Begin dp_comm_stream; Finish dp_comm_stream;     (* record start *)
    Begin dp_comm_stream; Finish dp_comm_stream;     (* all_reduce *)
    Begin dp_comm_stream; Finish dp_comm_stream;     (* record grad_ready *)
    Begin torch_optim_comp_stream; Finish torch_optim_comp_stream;   (* wait *)
    Begin torch_optim_comp_stream; Finish torch_optim_comp_stream;   (* record *)
    Begin torch_optim_comp_stream ].                 (* optimizer update *)

Lemma optimizer_update_waits_for_reductions_witness :
  exists m,
    run sample_schedule (boot (calls_of (optimizer_step (sample_dp true)))) = Some m /\
    begun m torch_optim_comp_stream 2 /\
    completed m dp_comm_stream 2.
Proof.
  destruct (run sample_schedule (boot (calls_of (optimizer_step (sample_dp true)))))
    as [m|] eqn:E; [|vm_compute in E; discriminate].
  exists m. split; [reflexivity|].
  assert (Hb : begun m torch_optim_comp_stream 2).
  { vm_compute in E. injection E as <-. right. split; reflexivity. }
  split; [exact Hb|].
  destruct (optimizer_update_waits_for_reductions (sample_dp true) [] [] m 2 2
              flatten_para_grad) as (r & w & _ & _ & _ & _ & _ & H).
  - rewrite app_nil_r. apply (run_rtc _ _ _ E).
  - simpl. lia.
  - reflexivity.
  - simpl. lia.
  - reflexivity.
  - exact (H Hb).
Defined.

(** The compute stream cannot begin its wait while the record of
    [allreduce_grad_ready_event] is still pending on the communication
    stream. *)
Example wait_blocks_until_recorded :
  run (repeat HostIssue 8 ++ [Begin torch_optim_comp_stream])
      (boot (calls_of (optimizer_step (sample_dp true)))) = None.
Proof. vm_compute. reflexivity. Qed.

(** ** Profiling marks in flattened mode *)

Lemma profile_mark_allreduce_end_falsy (self : AllReduceDP) (name : option string)
    (log : list call) :
  truthy name = false ->
  profile_mark_allreduce_end self name log = (Ok tt, log).
Proof.
  intros H. unfold profile_mark_allreduce_end. rewrite H, andb_false_r. reflexivity.
Qed.

(** The calls of [_allreduce_gradients] on an object constructed in flattened
    mode. *)
Lemma allreduce_gradients_flattened args device0 module0 opt self (log : list call) :
  AllReduceDP_init args device0 module0 (Some opt) true = Ok self ->
  _allreduce_gradients self log =
  (Ok tt,
   log ++ [WaitEvent dp_comm_stream backward_ready_event] ++
          (if enable_tidy_profiling self
           then [RecordEvent dp_comm_stream flat_start_event] else []) ++
          [Launch dp_comm_stream (all_reduce flatten_para_grad);
           RecordEvent dp_comm_stream allreduce_grad_ready_event]).
Proof.
  unfold AllReduceDP_init. intros [= <-].
  unfold _allreduce_gradients, profile_mark_allreduce_start,
    profile_mark_allreduce_end. simpl.
  destruct (String.eqb (profiling args) "tidy_profiling"); simpl;
    cbv [mbind host_bind lift record_event wait_event issue mret host_ret];
    rewrite <- ?app_assoc; reflexivity.
Qed.

(** C10.  [profile_mark_allreduce_end] called with no name (or an empty one)
    issues nothing.  An object constructed in flattened mode has no dictionary
    of end events, and its [_allreduce_gradients] records, after the
    reduction, only [allreduce_grad_ready_event].  In flattened mode the log
    of [profiling_data_parallel] holds one [opt_allreduce] entry, whose
    duration is 1000 times the elapsed time from the start event to
    [allreduce_grad_ready_event]. *)
Theorem flattened_interval_ends_at_grad_ready :
  (forall (self : AllReduceDP) (log : list call),
      profile_mark_allreduce_end self None log = (Ok tt, log) /\
      profile_mark_allreduce_end self (Some "") log = (Ok tt, log)) /\
  (forall args device0 module0 opt self,
      AllReduceDP_init args device0 module0 (Some opt) true = Ok self ->
      allreduce_gradients_end_events self = None /\
      allreduce_gradients_start_event self =
        (if enable_tidy_profiling self then Some flat_start_event else None) /\
      calls_of (_allreduce_gradients self) =
        [WaitEvent dp_comm_stream backward_ready_event] ++
        (if enable_tidy_profiling self
         then [RecordEvent dp_comm_stream flat_start_event] else []) ++
        [Launch dp_comm_stream (all_reduce flatten_para_grad);
         RecordEvent dp_comm_stream allreduce_grad_ready_event]) /\
  (forall (elapsed_time : event -> event -> result Q) (self self' : AllReduceDP)
          (ts : Q) (ev : event) (log : list trace_entry),
      flatten self = true ->
      profiling_data_parallel elapsed_time self ts ev = Ok (self', log) ->
      exists start d entry last,
        allreduce_gradients_start_event self = Some start /\
        elapsed_time start allreduce_grad_ready_event = Ok d /\
        log = [entry; last] /\
        log_name entry = "opt_allreduce" /\
        log_dur entry = (d * 1000)%Q /\
        log_name last = "opt_comp").
Proof.
  split; [|split].
  - intros self log. split; apply profile_mark_allreduce_end_falsy; reflexivity.
  - intros args device0 module0 opt self Hinit.
    assert (Hcalls := allreduce_gradients_flattened _ _ _ _ _ [] Hinit).
    unfold calls_of. rewrite Hcalls.
    unfold AllReduceDP_init in Hinit. injection Hinit as <-. simpl.
    rewrite andb_false_r, andb_true_r. repeat split.
  - intros elapsed_time self self' ts ev log Hflat H.
    unfold profiling_data_parallel in H. simpl in H. rewrite Hflat in H.
    destruct (allreduce_gradients_start_event self) as [start|]; [|discriminate].
    simpl in H.
    destruct (elapsed_time start allreduce_grad_ready_event) as [d|] eqn:Ed;
      [|discriminate].
    simpl in H.
    destruct (get_ts elapsed_time (set_time_stamp self ts ev) start) as [t|];
      [|discriminate].
    simpl in H.
    destruct (flatten_para self) as [fp|]; [|discriminate]. simpl in H.
    destruct (optimizer_step_start_event self) as [st|]; [|discriminate].
    simpl in H.
    destruct (elapsed_time st optimizer_step_ready_event) as [d'|]; [|discriminate].
    simpl in H.
    destruct (get_ts elapsed_time (set_time_stamp self ts ev) st) as [t'|];
      [|discriminate].
    simpl in H. injection H as <- <-.
    exists start, d. do 2 eexists. split; [reflexivity|]. split; [exact Ed|].
    repeat split.
Qed.

Lemma flattened_interval_ends_at_grad_ready_witness :
  exists self' entry last,
    profiling_data_parallel one_ms_apart (sample_dp true) 0 (other_event 0)
      = Ok (self', [entry; last]) /\
    log_dur entry = (1 * 1000)%Q.
Proof.
  destruct (profiling_data_parallel one_ms_apart (sample_dp true) 0 (other_event 0))
    as [[self' log]|] eqn:E; [|vm_compute in E; discriminate].
  destruct (proj2 (proj2 flattened_interval_ends_at_grad_ready)
              one_ms_apart (sample_dp true) self' 0%Q (other_event 0) log
              eq_refl E)
    as (start & d & entry & last & _ & Hd & -> & _ & Hdur & _).
  injection Hd as <-.
  exists self', entry, last. split; [reflexivity|exact Hdur].
Defined.

(** ** Further properties of the all-reduce step *)

(** *** Objects built by the constructor *)

Lemma events_by_name_lookup (mk : string -> event) (module0 : list parameter)
    (name : string) :
  events_by_name mk module0 !! name =
  if decide (name ∈ para_name <$> module0) then Some (mk name) else None.
Proof.
  unfold events_by_name.
  induction module0 as [|p l IH] using rev_ind.
  - simpl. rewrite lookup_empty.
    destruct (decide (name ∈ para_name <$> [])) as [H|_]; [|reflexivity].
    now apply elem_of_nil in H.
  - rewrite foldl_app. simpl. rewrite fmap_app. simpl.
    destruct (decide (para_name p = name)) as [<-|Hne].
    + rewrite lookup_insert_eq, decide_True; [reflexivity|].
      apply elem_of_app. right. apply list_elem_of_singleton. reflexivity.
    + rewrite lookup_insert_ne by exact Hne. rewrite IH.
      destruct (decide (name ∈ para_name <$> l)) as [Hin|Hnin].
      * rewrite decide_True; [reflexivity|]. apply elem_of_app. now left.
      * rewrite decide_False; [reflexivity|]. intros H.
        apply elem_of_app in H as [H|H]; [contradiction|].
        apply list_elem_of_singleton in H. congruence.
Qed.

(** What [__init__] establishes and no method changes except the time
    stamp. *)
Record constructed (self : AllReduceDP) : Prop := mkConstructed {
  constructed_flat :
    flatten_para self =
    if flatten self then Some (flatten_params (module self)) else None;
  constructed_start :
    allreduce_gradients_start_event self =
    if enable_tidy_profiling self && flatten self then Some flat_start_event else None;
  constructed_starts :
    allreduce_gradients_start_events self =
    if enable_tidy_profiling self && negb (flatten self)
    then Some (events_by_name start_event_of (module self)) else None;
  constructed_ends :
    allreduce_gradients_end_events self =
    if enable_tidy_profiling self && negb (flatten self)
    then Some (events_by_name end_event_of (module self)) else None;
  constructed_step_start :
    optimizer_step_start_event self =
    if enable_tidy_profiling self then Some step_start_event else None
}.

Lemma init_constructed args device0 module0 opt flatten0 self :
  AllReduceDP_init args device0 module0 (Some opt) flatten0 = Ok self ->
  constructed self /\
  module self = module0 /\ flatten self = flatten0 /\
  enable_tidy_profiling self = String.eqb (profiling args) "tidy_profiling" /\
  global_rank self = rank args /\
  init_event self = None /\ init_time_stamp self = None.
Proof.
  unfold AllReduceDP_init. intros [= <-]. simpl. repeat split.
Qed.

Lemma set_time_stamp_constructed (self : AllReduceDP) (ts : Q) (ev : event) :
  constructed self -> constructed (set_time_stamp self ts ev).
Proof. intros [H1 H2 H3 H4 H5]. split; assumption. Qed.

(** *** [_compute_total_para_num] *)

(** X11.  [_compute_total_para_num] returns the sum of the element counts of
    all parameters and the element size of the last parameter alone ((0, 0)
    for a module without parameters). *)
Theorem compute_total_para_num_sum_and_last (self : AllReduceDP) :
  _compute_total_para_num self =
  (foldr Z.add 0 (para_numel <$> module self),
   default 0 (para_element_size <$> last (module self))).
Proof.
  unfold _compute_total_para_num.
  induction (module self) as [|p l IH] using rev_ind; [reflexivity|].
  rewrite foldl_app, IH. simpl. rewrite fmap_app, foldr_app, last_snoc. simpl.
  f_equal. clear. generalize (para_numel <$> l). intros zs.
  induction zs as [|z zs IH]; simpl; [lia|]. rewrite <- IH. lia.
Qed.

(** *** The calls of one step, exactly *)

(** The calls [_allreduce_gradients] makes for one parameter in per-parameter
    mode. *)
Definition reduction_calls (self : AllReduceDP) (para : parameter) : list call :=
  if para_grad_is_None para then []
  else
    (if enable_tidy_profiling self
     then [RecordEvent dp_comm_stream (start_event_of (para_name para))] else []) ++
    [Launch dp_comm_stream (all_reduce (para_grad (para_name para)))] ++
    (if enable_tidy_profiling self && negb (String.eqb (para_name para) "")
     then [RecordEvent dp_comm_stream (end_event_of (para_name para))] else []).

(** The calls of [optimizer_step], in order. *)
Definition step_calls (self : AllReduceDP) : list call :=
  [WaitEvent dp_comm_stream backward_ready_event] ++
  (if flatten self
   then (if enable_tidy_profiling self
         then [RecordEvent dp_comm_stream flat_start_event] else []) ++
        [Launch dp_comm_stream (all_reduce flatten_para_grad)]
   else flat_map (reduction_calls self) (module self)) ++
  [RecordEvent dp_comm_stream allreduce_grad_ready_event;
   WaitEvent torch_optim_comp_stream allreduce_grad_ready_event] ++
  (if enable_tidy_profiling self
   then [RecordEvent torch_optim_comp_stream step_start_event] else []) ++
  [Launch torch_optim_comp_stream optimizer_update;
   RecordEvent torch_optim_comp_stream optimizer_step_ready_event].

Ltac run_host :=
  cbv [mbind host_bind lift record_event wait_event issue mret host_ret getattr].

Lemma reduction_run (self : AllReduceDP) (para : parameter) (log : list call) :
  constructed self -> flatten self = false ->
  para_name para ∈ para_name <$> module self ->
  (if para_grad_is_None para then mret tt
   else
     profile_mark_allreduce_start self (Some (para_name para));;
     issue (Launch dp_comm_stream (all_reduce (para_grad (para_name para))));;
     profile_mark_allreduce_end self (Some (para_name para))) log
  = (Ok tt, log ++ reduction_calls self para).
Proof.
  intros [_ _ Hs He _] Hflat Hin. unfold reduction_calls.
  rewrite Hflat, andb_true_r in Hs, He.
  destruct (para_grad_is_None para); [run_host; now rewrite app_nil_r|].
  unfold profile_mark_allreduce_start, profile_mark_allreduce_end, truthy, getitem.
  destruct (enable_tidy_profiling self); simpl.
  - rewrite Hs, He. simpl. run_host.
    rewrite events_by_name_lookup, decide_True by exact Hin.
    destruct (negb (String.eqb (para_name para) "")); simpl.
    + rewrite events_by_name_lookup, decide_True by exact Hin.
      rewrite <- ?app_assoc. reflexivity.
    + rewrite <- ?app_assoc. reflexivity.
  - run_host. rewrite <- ?app_assoc. reflexivity.
Qed.

Lemma reductions_run (self : AllReduceDP) (l : list parameter) (log : list call) :
  constructed self -> flatten self = false ->
  (forall para, para ∈ l -> para_name para ∈ para_name <$> module self) ->
  for_each l (fun para =>
    if para_grad_is_None para then mret tt
    else
      profile_mark_allreduce_start self (Some (para_name para));;
      issue (Launch dp_comm_stream (all_reduce (para_grad (para_name para))));;
      profile_mark_allreduce_end self (Some (para_name para))) log
  = (Ok tt, log ++ flat_map (reduction_calls self) l).
Proof.
  intros Hc Hflat. revert log. induction l as [|p l IH]; intros log Hin.
  - simpl. run_host. now rewrite app_nil_r.
  - simpl for_each. rewrite host_bind_run, reduction_run; try assumption.
    + rewrite IH by (intros q Hq; apply Hin; now right).
      simpl. rewrite <- app_assoc. reflexivity.
    + apply Hin. now left.
Qed.

(** On an object built by the constructor [optimizer_step] returns normally
    and issues exactly [step_calls]. *)
Lemma optimizer_step_constructed (self : AllReduceDP) (log : list call) :
  constructed self ->
  optimizer_step self log = (Ok tt, log ++ step_calls self).
Proof.
  intros Hc. pose proof Hc as [Hf Hst _ _ Hss].
  unfold optimizer_step, _allreduce_gradients, step_calls.
  rewrite !host_bind_run.
  change (wait_event dp_comm_stream backward_ready_event log)
    with (Ok tt, log ++ [WaitEvent dp_comm_stream backward_ready_event]).
  cbv iota beta.
  unfold profile_mark_optimizer_step_start. rewrite Hss.
  destruct (flatten self) eqn:Hflat.
  - unfold profile_mark_allreduce_start, profile_mark_allreduce_end. simpl.
    rewrite Hf, Hst, andb_true_r, andb_false_r.
    destruct (enable_tidy_profiling self); simpl; run_host;
      rewrite <- ?app_assoc; reflexivity.
  - rewrite ?host_bind_run. rewrite reductions_run; try assumption.
    + destruct (enable_tidy_profiling self); simpl; run_host;
        rewrite <- ?app_assoc; reflexivity.
    + intros para Hin. apply list_elem_of_fmap. now exists para.
Qed.

(** X12.  On an object built by the constructor, in either mode and with
    profiling on or off, [optimizer_step] never raises, whatever was issued
    before, and issues its calls in this order: the wait for
    [backward_ready_event], the reductions (with their profiling marks), the
    record of [allreduce_grad_ready_event], then on the compute stream the
    wait for that event, the optional start mark, the optimizer update and
    the record of [optimizer_step_ready_event]. *)
Theorem optimizer_step_never_raises args device0 module0 opt flatten0 self
    (log : list call) :
  AllReduceDP_init args device0 module0 (Some opt) flatten0 = Ok self ->
  optimizer_step self log = (Ok tt, log ++ step_calls self) /\
  calls_of (optimizer_step self) = step_calls self.
Proof.
  intros Hinit. apply init_constructed in Hinit as (Hc & _).
  split; [now apply optimizer_step_constructed|].
  unfold calls_of. now rewrite optimizer_step_constructed.
Qed.

Lemma optimizer_step_never_raises_witness :
  optimizer_step (sample_dp false) [] = (Ok tt, step_calls (sample_dp false)) /\
  step_calls (sample_dp false) =
    [ WaitEvent dp_comm_stream backward_ready_event;
      RecordEvent dp_comm_stream (start_event_of "w");
      Launch dp_comm_stream (all_reduce (para_grad "w"));
      RecordEvent dp_comm_stream (end_event_of "w");
      RecordEvent dp_comm_stream allreduce_grad_ready_event;
      WaitEvent torch_optim_comp_stream allreduce_grad_ready_event;
      RecordEvent torch_optim_comp_stream step_start_event;
      Launch torch_optim_comp_stream optimizer_update;
      RecordEvent torch_optim_comp_stream optimizer_step_ready_event ].
Proof.
  split; [|reflexivity].
  exact (proj1 (optimizer_step_never_raises sample_args None sample_module
                  (TorchOptimizer 0) false (sample_dp false) []
                  (sample_dp_init false))).
Defined.

(** The kernels among a list of calls, in order. *)
Definition kernels_of (cs : list call) : list kernel :=
  omap (fun c => match c with Launch _ k => Some k | _ => None end) cs.

Lemma kernels_of_app (cs1 cs2 : list call) :
  kernels_of (cs1 ++ cs2) = kernels_of cs1 ++ kernels_of cs2.
Proof. apply omap_app. Qed.

Lemma kernels_of_reductions (self : AllReduceDP) (l : list parameter) :
  kernels_of (flat_map (reduction_calls self) l) =
  (fun para => all_reduce (para_grad (para_name para))) <$>
    filter (fun para => para_grad_is_None para = false) l.
Proof.
  induction l as [|p l IH]; [reflexivity|].
  simpl flat_map. rewrite kernels_of_app, IH, filter_cons. unfold reduction_calls.
  destruct (para_grad_is_None p) eqn:E.
  - rewrite decide_False by discriminate. reflexivity.
  - rewrite decide_True by reflexivity.
    destruct (enable_tidy_profiling self);
      destruct (negb (String.eqb (para_name p) "")); reflexivity.
Qed.

(** X13.  The kernels one step launches, on an object built by the
    constructor: in per-parameter mode one [all_reduce] for each parameter
    that has a gradient, in the order of [named_parameters], none for a
    parameter without gradient; in flattened mode a single [all_reduce] of
    the flattened gradient; in both, the optimizer update last. *)
Theorem one_reduction_per_gradient args device0 module0 opt flatten0 self :
  AllReduceDP_init args device0 module0 (Some opt) flatten0 = Ok self ->
  kernels_of (calls_of (optimizer_step self)) =
  (if flatten0 then [all_reduce flatten_para_grad]
   else (fun para => all_reduce (para_grad (para_name para))) <$>
          filter (fun para => para_grad_is_None para = false) module0) ++
  [optimizer_update].
Proof.
  intros Hinit. apply init_constructed in Hinit as (Hc & Hm & Hf & _).
  unfold calls_of. rewrite optimizer_step_constructed by exact Hc.
  simpl snd. unfold step_calls. rewrite Hf, Hm.
  rewrite !kernels_of_app.
  destruct flatten0.
  - destruct (enable_tidy_profiling self); reflexivity.
  - rewrite kernels_of_reductions.
    destruct (enable_tidy_profiling self); simpl; rewrite ?app_nil_r; reflexivity.
Qed.

Lemma one_reduction_per_gradient_witness :
  kernels_of (calls_of (optimizer_step (sample_dp false))) =
  [all_reduce (para_grad "w"); optimizer_update].
Proof.
  exact (one_reduction_per_gradient sample_args None sample_module
           (TorchOptimizer 0) false (sample_dp false) (sample_dp_init false)).
Defined.

(** *** Profiling marks and the profiling log *)

(** X14.  The profiling marks on an object built by the constructor.  With
    profiling off they issue nothing and never raise.  With profiling on, a
    mark for a name that is not a parameter name raises [KeyError] in
    per-parameter mode, a named mark raises [AttributeError] in flattened
    mode (the dictionaries do not exist) and the unnamed start mark raises
    [AttributeError] in per-parameter mode (the single start event does not
    exist); a mark that raises issues nothing. *)
Theorem profile_marks_errors args device0 module0 opt flatten0 self
    (name : string) (log : list call) :
  AllReduceDP_init args device0 module0 (Some opt) flatten0 = Ok self ->
  name <> "" ->
  (enable_tidy_profiling self = false ->
     profile_mark_allreduce_start self (Some name) log = (Ok tt, log) /\
     profile_mark_allreduce_start self None log = (Ok tt, log) /\
     profile_mark_allreduce_end self (Some name) log = (Ok tt, log) /\
     profile_mark_optimizer_step_start self log = (Ok tt, log)) /\
  (enable_tidy_profiling self = true -> flatten0 = false ->
     name ∉ para_name <$> module0 ->
     profile_mark_allreduce_start self (Some name) log = (Raise (KeyError name), log) /\
     profile_mark_allreduce_end self (Some name) log = (Raise (KeyError name), log) /\
     profile_mark_allreduce_start self None log = (Raise AttributeError, log)) /\
  (enable_tidy_profiling self = true -> flatten0 = true ->
     profile_mark_allreduce_start self (Some name) log = (Raise AttributeError, log) /\
     profile_mark_allreduce_end self (Some name) log = (Raise AttributeError, log)).
Proof.
  intros Hinit Hname.
  apply init_constructed in Hinit as ([_ Hst Hs He _] & Hm & Hf & _).
  assert (Htruthy : truthy (Some name) = true).
  { simpl. destruct (String.eqb_spec name ""); [contradiction|reflexivity]. }
  unfold profile_mark_allreduce_start, profile_mark_allreduce_end,
    profile_mark_optimizer_step_start.
  rewrite Htruthy, Hst, Hs, He, Hf, Hm. split; [|split].
  - intros ->. repeat split.
  - intros -> -> Hnot. simpl. run_host. unfold getitem.
    rewrite !events_by_name_lookup, !decide_False by exact Hnot. repeat split.
  - intros -> ->. simpl. run_host. repeat split.
Qed.

Lemma profile_marks_errors_witness :
  profile_mark_allreduce_start (sample_dp false) (Some "bias") []
    = (Raise (KeyError "bias"), []) /\
  profile_mark_allreduce_start (sample_dp true) (Some "w") []
    = (Raise AttributeError, []).
Proof.
  split.
  - destruct (profile_marks_errors sample_args None sample_module (TorchOptimizer 0)
                false (sample_dp false) "bias" [] (sample_dp_init false))
      as (_ & H & _); [discriminate|].
    apply H; [reflexivity|reflexivity|].
    intros Hin. vm_compute in Hin. repeat (apply elem_of_cons in Hin as [Hin|Hin];
      [discriminate|]). now apply elem_of_nil in Hin.
  - destruct (profile_marks_errors sample_args None sample_module (TorchOptimizer 0)
                true (sample_dp true) "w" [] (sample_dp_init true))
      as (_ & _ & H); [discriminate|].
    apply H; reflexivity.
Defined.

Lemma reduction_calls_records (self : AllReduceDP) (l : list parameter)
    (s : stream) (e : event) :
  RecordEvent s e ∈ flat_map (reduction_calls self) l ->
  exists para, para ∈ l /\ para_grad_is_None para = false /\
               (e = start_event_of (para_name para) \/
                e = end_event_of (para_name para)).
Proof.
  induction l as [|p l IH]; simpl; intros H; [now apply elem_of_nil in H|].
  apply elem_of_app in H as [H|H].
  - exists p. split; [now left|]. unfold reduction_calls in H.
    destruct (para_grad_is_None p); [now apply elem_of_nil in H|].
    split; [reflexivity|].
    apply elem_of_app in H as [H|H]; [|apply elem_of_cons in H as [H|H]].
    + destruct (enable_tidy_profiling self); [|now apply elem_of_nil in H].
      apply list_elem_of_singleton in H. injection H as _ ->. now left.
    + discriminate.
    + destruct (enable_tidy_profiling self && _); [|now apply elem_of_nil in H].
      apply list_elem_of_singleton in H. injection H as _ ->. now right.
  - destruct (IH H) as (para & Hin & Hrest). exists para. split; [now right|exact Hrest].
Qed.

(** X15.  In per-parameter mode, the start and end events of a parameter
    without gradient are never recorded by [optimizer_step]. *)
Theorem gradless_parameter_events_not_recorded args device0 module0 opt self
    (name : string) (s : stream) :
  AllReduceDP_init args device0 module0 (Some opt) false = Ok self ->
  (forall para, para ∈ module0 -> para_name para = name ->
                para_grad_is_None para = true) ->
  (RecordEvent s (start_event_of name) ∉ calls_of (optimizer_step self)) /\
  (RecordEvent s (end_event_of name) ∉ calls_of (optimizer_step self)).
Proof.
  intros Hinit Hnone. apply init_constructed in Hinit as (Hc & Hm & Hf & _).
  unfold calls_of. rewrite optimizer_step_constructed by exact Hc.
  simpl snd. unfold step_calls. rewrite Hf, Hm.
  assert (H : forall e, (e = start_event_of name \/ e = end_event_of name) ->
                RecordEvent s e ∉
                  [WaitEvent dp_comm_stream backward_ready_event] ++
                  flat_map (reduction_calls self) module0 ++
                  [RecordEvent dp_comm_stream allreduce_grad_ready_event;
                   WaitEvent torch_optim_comp_stream allreduce_grad_ready_event] ++
                  (if enable_tidy_profiling self
                   then [RecordEvent torch_optim_comp_stream step_start_event]
                   else []) ++
                  [Launch torch_optim_comp_stream optimizer_update;
                   RecordEvent torch_optim_comp_stream optimizer_step_ready_event]).
  { intros e He Hin.
    apply elem_of_cons in Hin as [Hin|Hin]; [discriminate|].
    apply elem_of_app in Hin as [Hin|Hin].
    - apply reduction_calls_records in Hin as (para & Hp & Hg & Hev).
      assert (Hn : para_name para = name)
        by (destruct He as [->| ->], Hev as [Hev|Hev]; congruence).
      rewrite (Hnone para Hp Hn) in Hg. discriminate.
    - assert (He' : e <> allreduce_grad_ready_event /\ e <> step_start_event /\
                    e <> optimizer_step_ready_event)
        by (destruct He as [->| ->]; repeat split; discriminate).
      destruct He' as (N1 & N2 & N3).
      apply elem_of_cons in Hin as [Hin|Hin]; [congruence|].
      apply elem_of_cons in Hin as [Hin|Hin]; [discriminate|].
      apply elem_of_app in Hin as [Hin|Hin].
      + destruct (enable_tidy_profiling self); [|now apply elem_of_nil in Hin].
        apply list_elem_of_singleton in Hin. congruence.
      + apply elem_of_cons in Hin as [Hin|Hin]; [discriminate|].
        apply list_elem_of_singleton in Hin. congruence. }
  split; apply H; [now left|now right].
Qed.

Lemma gradless_parameter_events_not_recorded_witness :
  (RecordEvent dp_comm_stream (start_event_of "b") ∉
     calls_of (optimizer_step (sample_dp false))) /\
  (RecordEvent dp_comm_stream (end_event_of "b") ∉
     calls_of (optimizer_step (sample_dp false))).
Proof.
  apply (gradless_parameter_events_not_recorded sample_args None sample_module
           (TorchOptimizer 0) (sample_dp false) "b" dp_comm_stream
           (sample_dp_init false)).
  intros para Hin Hn. unfold sample_module in Hin.
  apply elem_of_cons in Hin as [->|Hin]; [discriminate|].
  apply list_elem_of_singleton in Hin as ->. reflexivity.
Defined.

Lemma map_result_Forall2 {A B : Type} (f : A -> result B) (l : list A) (ys : list B) :
  map_result f l = Ok ys -> Forall2 (fun x y => f x = Ok y) l ys.
Proof.
  revert ys. induction l as [|x l IH]; simpl; intros ys H.
  - injection H as <-. constructor.
  - destruct (f x) as [y|] eqn:E; [|discriminate]. simpl in H.
    destruct (map_result f l) as [ys'|]; [|discriminate]. simpl in H.
    injection H as <-. constructor; [exact E|now apply IH].
Qed.

(** X16.  The log of [profiling_data_parallel] in per-parameter mode, on an
    object built by the constructor: when the call returns, the object has
    the new time stamp and the log holds one [opt_allreduce] entry for every
    named parameter, with or without gradient, in order, then the [opt_comp]
    entry.  The entry of a parameter carries its name and element count, the
    duration 1000 times the elapsed time from its start to its end event and
    the timestamp of its start event; so the elapsed time between the events
    of every parameter must be available. *)
Theorem profiling_log_per_parameter
    (elapsed_time : event -> event -> result Q)
    args device0 module0 opt (self self' : AllReduceDP)
    (ts : Q) (ev : event) (log : list trace_entry) :
  AllReduceDP_init args device0 module0 (Some opt) false = Ok self ->
  profiling_data_parallel elapsed_time self ts ev = Ok (self', log) ->
  self' = set_time_stamp self ts ev /\
  length log = S (length module0) /\
  (forall (i : nat) (para : parameter), module0 !! i = Some para ->
     exists d0 d entry,
       elapsed_time ev (start_event_of (para_name para)) = Ok d0 /\
       elapsed_time (start_event_of (para_name para))
                    (end_event_of (para_name para)) = Ok d /\
       log !! i = Some entry /\
       log_name entry = "opt_allreduce" /\
       log_ts entry = (ts + d0 * 1000)%Q /\
       log_dur entry = (d * 1000)%Q /\
       log_args entry = Some (para_name para, para_numel para)) /\
  (exists d0 d last,
     elapsed_time ev step_start_event = Ok d0 /\
     elapsed_time step_start_event optimizer_step_ready_event = Ok d /\
     log !! length module0 = Some last /\
     log_name last = "opt_comp" /\
     log_ts last = (ts + d0 * 1000)%Q /\
     log_dur last = (d * 1000)%Q /\
     log_args last = None).
Proof.
  intros Hinit. apply init_constructed in Hinit as ([_ _ Hs He Hss] & Hm & Hf & _).
  unfold profiling_data_parallel. simpl. rewrite Hf, Hs, He, Hss, Hf, Hm.
  destruct (enable_tidy_profiling self); simpl.
  2:{ destruct (map_result _ module0); simpl; discriminate. }
  match goal with
  | |- context [map_result ?f module0] => set (entry_of := f)
  end.
  destruct (map_result entry_of module0) as [entries|] eqn:Emap; [|discriminate].
  simpl. unfold get_ts. simpl.
  destruct (elapsed_time step_start_event optimizer_step_ready_event) as [d|] eqn:Ed;
    [|discriminate]. simpl.
  destruct (elapsed_time ev step_start_event) as [d0|] eqn:Ed0; [|discriminate].
  simpl. intros [= <- <-].
  apply map_result_Forall2 in Emap.
  assert (Hlen := Forall2_length _ _ _ Emap).
  split; [reflexivity|]. split; [rewrite length_app; simpl; lia|]. split.
  - intros i para Hi.
    destruct (Forall2_lookup_l _ _ _ _ _ Emap Hi) as (entry & Hentry & Hf2).
    unfold entry_of, getitem, get_ts in Hf2. simpl in Hf2.
    assert (Hin : para_name para ∈ para_name <$> module0)
      by (apply list_elem_of_fmap; exists para; split;
          [reflexivity|eapply list_elem_of_lookup_2; exact Hi]).
    rewrite !events_by_name_lookup, !decide_True in Hf2 by exact Hin.
    simpl in Hf2.
    destruct (elapsed_time (start_event_of (para_name para))
                (end_event_of (para_name para))) as [dp|] eqn:Edp; [|discriminate].
    simpl in Hf2.
    destruct (elapsed_time ev (start_event_of (para_name para))) as [dp0|] eqn:Edp0;
      [|discriminate].
    simpl in Hf2. injection Hf2 as <-.
    exists dp0, dp. eexists. split; [reflexivity|]. split; [reflexivity|].
    split; [rewrite lookup_app_l by (eapply lookup_lt_Some; exact Hentry);
            exact Hentry|].
    repeat split.
  - exists d0, d. eexists. split; [reflexivity|]. split; [reflexivity|].
    split; [rewrite Hlen; apply list_lookup_middle; reflexivity|]. repeat split.
Qed.

Lemma profiling_log_per_parameter_witness :
  exists self' log,
    profiling_data_parallel one_ms_apart (sample_dp false) 0 (other_event 0)
      = Ok (self', log) /\
    length log = 3%nat /\
    exists entry, log !! 1%nat = Some entry /\ log_args entry = Some ("b", 2).
Proof.
  destruct (profiling_data_parallel one_ms_apart (sample_dp false) 0 (other_event 0))
    as [[self' log]|] eqn:E; [|vm_compute in E; discriminate].
  exists self', log. split; [reflexivity|].
  destruct (profiling_log_per_parameter one_ms_apart sample_args None sample_module
              (TorchOptimizer 0) (sample_dp false) self' 0 (other_event 0) log
              (sample_dp_init false) E) as (_ & Hlen & Hentries & _).
  split; [exact Hlen|].
  destruct (Hentries 1%nat _ eq_refl) as (d0 & d & entry & _ & _ & Hl & _ & _ & _ & Ha).
  exists entry. split; [exact Hl|exact Ha].
Defined.

Lemma map_result_first_raises {A B : Type} (f : A -> result B) (x : A) (l : list A)
    (e : exn) :
  f x = Raise e -> map_result f (x :: l) = Raise e.
Proof. intros H. simpl. rewrite H. reflexivity. Qed.

(** X17.  [profiling_data_parallel] needs tidy profiling: on an object built
    by the constructor with profiling off it raises [AttributeError], in
    either mode (the events it reads were never created). *)
Theorem profiling_needs_tidy_profiling
    (elapsed_time : event -> event -> result Q)
    args device0 module0 opt flatten0 (self : AllReduceDP) (ts : Q) (ev : event) :
  AllReduceDP_init args device0 module0 (Some opt) flatten0 = Ok self ->
  enable_tidy_profiling self = false ->
  profiling_data_parallel elapsed_time self ts ev = Raise AttributeError.
Proof.
  intros Hinit Hoff.
  apply init_constructed in Hinit as ([_ Hst Hs He Hss] & Hm & Hf & _).
  rewrite Hoff in Hst, Hs, He, Hss. simpl in Hst, Hs, He.
  unfold profiling_data_parallel. simpl. rewrite Hf, Hst, Hs, Hss, Hm.
  destruct flatten0; [reflexivity|].
  destruct module0 as [|p l]; [reflexivity|].
  rewrite (map_result_first_raises _ p l AttributeError) by reflexivity.
  reflexivity.
Qed.

(** The object [AllReduceDP] builds for the sample module when profiling is
    not requested. *)
Definition quiet_args : Args :=
  {| rank := 0; data_group_size := 2; profiling := "no-profiling" |}.

Lemma profiling_needs_tidy_profiling_witness :
  exists self,
    AllReduceDP_init quiet_args None sample_module (Some (TorchOptimizer 0)) false
      = Ok self /\
    profiling_data_parallel one_ms_apart self 0 (other_event 0) = Raise AttributeError.
Proof.
  eexists. split; [reflexivity|].
  eapply (profiling_needs_tidy_profiling one_ms_apart quiet_args None sample_module
            (TorchOptimizer 0) false); reflexivity.
Defined.

(** X18.  [get_ts] needs [set_time_stamp]: on an object fresh from the
    constructor it raises [AttributeError]; after [set_time_stamp] it raises
    exactly when the elapsed time from the reference event is not available,
    with that exception. *)
Theorem get_ts_needs_time_stamp
    (elapsed_time : event -> event -> result Q)
    args device0 module0 opt flatten0 (self : AllReduceDP)
    (ts : Q) (ev x : event) :
  AllReduceDP_init args device0 module0 (Some opt) flatten0 = Ok self ->
  get_ts elapsed_time self x = Raise AttributeError /\
  (forall e, get_ts elapsed_time (set_time_stamp self ts ev) x = Raise e <->
             elapsed_time ev x = Raise e).
Proof.
  intros Hinit. apply init_constructed in Hinit as (_ & _ & _ & _ & _ & Hev & _).
  unfold get_ts. rewrite Hev. split; [reflexivity|]. simpl.
  intros e. destruct (elapsed_time ev x); simpl; split; congruence.
Qed.

(** A clock that knows no event. *)
Definition nothing_recorded (e1 e2 : event) : result Q := Raise RuntimeError.

Lemma get_ts_needs_time_stamp_witness :
  get_ts one_ms_apart (sample_dp true) allreduce_grad_ready_event
    = Raise AttributeError /\
  get_ts nothing_recorded (set_time_stamp (sample_dp true) 0 (other_event 0))
    allreduce_grad_ready_event = Raise RuntimeError.
Proof.
  split.
  - exact (proj1 (get_ts_needs_time_stamp one_ms_apart sample_args None sample_module
                    (TorchOptimizer 0) true (sample_dp true) 0 (other_event 0)
                    allreduce_grad_ready_event (sample_dp_init true))).
  - apply (proj2 (get_ts_needs_time_stamp nothing_recorded sample_args None
                    sample_module (TorchOptimizer 0) true (sample_dp true) 0
                    (other_event 0) allreduce_grad_ready_event (sample_dp_init true))).
    reflexivity.
Defined.

(** *** More orderings across the streams *)

(** A method that only extends the log. *)
Definition extends {A : Type} (m : host A) : Prop :=
  forall log, exists Z, snd (m log) = log ++ Z.

Lemma issues_on_extends (s : stream) {A : Type} (m : host A) :
  issues_on s m -> extends m.
Proof. intros H log. destruct (H log) as (X & HX & _). now exists X. Qed.

Lemma extends_bind {A B : Type} (m : host A) (k : A -> host B) :
  extends m -> (forall a, extends (k a)) -> extends (m ≫= k).
Proof.
  intros Hm Hk log. rewrite host_bind_run.
  destruct (Hm log) as (X & HX).
  destruct (m log) as [[a|e] log'] eqn:E; simpl in HX; subst log'.
  - destruct (Hk a (log ++ X)) as (Y & HY).
    exists (X ++ Y). rewrite HY. apply eq_sym, app_assoc.
  - now exists X.
Qed.

(** Whatever its outcome, [optimizer_step] first issues the wait for
    [backward_ready_event] on the communication stream. *)
Lemma optimizer_step_head (self : AllReduceDP) (log : list call) :
  exists rest,
    snd (optimizer_step self log) =
    log ++ WaitEvent dp_comm_stream backward_ready_event :: rest.
Proof.
  unfold optimizer_step, _allreduce_gradients.
  match goal with
  | |- context [(wait_event dp_comm_stream backward_ready_event ≫= ?r) ≫= ?k] =>
      set (R := r); set (K := k)
  end.
  assert (Hext : extends (R tt ≫= K)).
  { apply extends_bind.
    - subst R. apply extends_bind.
      + apply (issues_on_extends dp_comm_stream).
        destruct (flatten self); auto 20 with issues.
        apply issues_on_for_each. intros para.
        destruct (para_grad_is_None para); auto 20 with issues.
      + intros _. apply (issues_on_extends dp_comm_stream). auto with issues.
    - intros []. subst K. cbv beta. apply extends_bind.
      + apply (issues_on_extends torch_optim_comp_stream).
        exact (issues_on_issue
                 (WaitEvent torch_optim_comp_stream allreduce_grad_ready_event)).
      + intros _. apply (issues_on_extends torch_optim_comp_stream).
        auto 20 with issues. }
  destruct (Hext (log ++ [WaitEvent dp_comm_stream backward_ready_event]))
    as (Z & HZ).
  exists Z. rewrite <- app_assoc in HZ. exact HZ.
Qed.

(** X19.  The reductions wait for the backward pass: when the caller records
    [backward_ready_event] (on any stream) right before calling
    [optimizer_step], then in every interleaving a reduction of the step
    begins only after that record has completed, hence after everything
    enqueued before it on its stream. *)
Theorem reductions_wait_for_backward
    (self : AllReduceDP) (before after : list call) (s : stream) (m : machine)
    (i : nat) (buf : buffer) :
  let recorded := before ++ [RecordEvent s backward_ready_event] in
  let issued := snd (optimizer_step self recorded) in
  reachable (issued ++ after) m ->
  (length (calls_on dp_comm_stream recorded) <= i)%nat ->
  calls_on dp_comm_stream issued !! i
    = Some (Launch dp_comm_stream (all_reduce buf)) ->
  begun m dp_comm_stream i ->
  completed m s (length (calls_on s before)).
Proof.
  intros recorded issued Hreach Hi Hred Hb.
  destruct (optimizer_step_head self recorded) as (rest & Hshape).
  fold issued in Hshape.
  set (w := length (calls_on dp_comm_stream recorded)) in *.
  assert (Hwi : (w < i)%nat).
  { destruct (decide (i = w)) as [->|Hne]; [exfalso|lia].
    rewrite Hshape, calls_on_app, calls_on_cons, decide_True in Hred by reflexivity.
    rewrite lookup_app_r in Hred by reflexivity.
    fold w in Hred. rewrite Nat.sub_diag in Hred. discriminate. }
  assert (Hprog : issued ++ after =
            before ++ RecordEvent s backward_ready_event
                   :: WaitEvent dp_comm_stream backward_ready_event
                   :: (rest ++ after)).
  { rewrite Hshape. unfold recorded. rewrite <- !app_assoc. reflexivity. }
  destruct (record_then_wait_queues before (rest ++ after) s dp_comm_stream
              backward_ready_event) as (g & Hg & Hrec & Hw).
  rewrite <- Hprog in Hrec, Hw. fold recorded in Hw. fold w in Hw.
  apply (reachable_waits (issued ++ after) _ _ _ g _ _ Hg Hrec Hw m Hreach).
  apply completed_begun.
  exact (begun_later_completed_earlier _ _ _ _ Hwi Hb).
Qed.

(** One step after a backward pass on the compute stream: the backward
    kernel stands for the caller's work; the reduction has begun. *)
Definition backward_then_step : list call :=
  [Launch torch_optim_comp_stream optimizer_update;
   RecordEvent torch_optim_comp_stream backward_ready_event].

Definition backward_schedule : list action :=
  repeat HostIssue 10 ++
  [ Begin torch_optim_comp_stream; Finish torch_optim_comp_stream;
    Begin torch_optim_comp_stream; Finish torch_optim_comp_stream;
    Begin dp_comm_stream; Finish dp_comm_stream;
    Begin dp_comm_stream; Finish dp_comm_stream;
    Begin dp_comm_stream ].

Lemma reductions_wait_for_backward_witness :
  exists m,
    run backward_schedule
        (boot (snd (optimizer_step (sample_dp true) backward_then_step))) = Some m /\
    begun m dp_comm_stream 2 /\
    completed m torch_optim_comp_stream 1.
Proof.
  destruct (run backward_schedule
              (boot (snd (optimizer_step (sample_dp true) backward_then_step))))
    as [m|] eqn:E; [|vm_compute in E; discriminate].
  exists m. split; [reflexivity|].
  assert (Hb : begun m dp_comm_stream 2).
  { vm_compute in E. injection E as <-. right. split; reflexivity. }
  split; [exact Hb|].
  apply (reductions_wait_for_backward (sample_dp true)
           [Launch torch_optim_comp_stream optimizer_update] []
           torch_optim_comp_stream m 2 flatten_para_grad).
  - rewrite app_nil_r. apply (run_rtc _ _ _ E).
  - simpl. lia.
  - reflexivity.
  - exact Hb.
Defined.

(** The calls of an [optimizer_step] that returns. *)
Lemma optimizer_step_ok_shape (self : AllReduceDP) (log issued : list call) :
  optimizer_step self log = (Ok tt, issued) ->
  exists X P,
    Forall (fun c => stream_of c = dp_comm_stream) X /\
    Forall (fun c => stream_of c = torch_optim_comp_stream) P /\
    issued =
      log ++ X ++
      [RecordEvent dp_comm_stream allreduce_grad_ready_event;
       WaitEvent torch_optim_comp_stream allreduce_grad_ready_event] ++
      P ++
      [Launch torch_optim_comp_stream optimizer_update;
       RecordEvent torch_optim_comp_stream optimizer_step_ready_event].
Proof.
  unfold optimizer_step. rewrite host_bind_run.
  destruct (allreduce_gradients_shape self log) as (X & HXs & [[e HX]|HX]);
    rewrite HX; [discriminate|].
  rewrite host_bind_run. unfold wait_event, issue at 1. cbv iota beta.
  rewrite host_bind_run.
  set (L := (log ++ X ++ [RecordEvent dp_comm_stream allreduce_grad_ready_event]) ++
            [WaitEvent torch_optim_comp_stream allreduce_grad_ready_event]).
  destruct (profile_mark_optimizer_step_start_issues self L) as (P & HP & HPs).
  destruct (profile_mark_optimizer_step_start self L) as [[[]|e] L'];
    [|discriminate].
  simpl in HP. subst L'. run_host. intros [= <-].
  exists X, P. split; [exact HXs|]. split; [exact HPs|].
  unfold L. rewrite <- !app_assoc. reflexivity.
Qed.

(** X20.  [optimizer_step_ready_event] marks the end of the step: when a
    wait for it is issued (on any stream) right after an [optimizer_step]
    that returned, then in every interleaving, once that wait has begun, the
    optimizer update of the step has completed and so has every reduction of
    the step. *)
Theorem step_ready_event_marks_the_end
    (self : AllReduceDP) (before rest issued : list call) (s' : stream)
    (m : machine) :
  optimizer_step self before = (Ok tt, issued) ->
  reachable (issued ++ WaitEvent s' optimizer_step_ready_event :: rest) m ->
  begun m s' (length (calls_on s' issued)) ->
  (exists j : nat,
      (length (calls_on torch_optim_comp_stream before) <= j)%nat /\
      calls_on torch_optim_comp_stream issued !! j
        = Some (Launch torch_optim_comp_stream optimizer_update) /\
      completed m torch_optim_comp_stream j) /\
  (forall (i : nat) (buf : buffer),
      (length (calls_on dp_comm_stream before) <= i)%nat ->
      calls_on dp_comm_stream issued !! i
        = Some (Launch dp_comm_stream (all_reduce buf)) ->
      completed m dp_comm_stream i).
Proof.
  intros Hok Hreach Hb.
  destruct (optimizer_step_ok_shape self before issued Hok)
    as (X & P & HX & HP & Hshape).
  set (cb := calls_on dp_comm_stream before).
  set (pb := calls_on torch_optim_comp_stream before).
  set (program := issued ++ WaitEvent s' optimizer_step_ready_event :: rest) in *.
  (* the compute stream of this step *)
  assert (Hcomp : calls_on torch_optim_comp_stream issued =
            pb ++ WaitEvent torch_optim_comp_stream allreduce_grad_ready_event :: P ++
            [Launch torch_optim_comp_stream optimizer_update;
             RecordEvent torch_optim_comp_stream optimizer_step_ready_event]).
  { rewrite Hshape, !calls_on_app. fold pb.
    rewrite (calls_on_other _ dp_comm_stream X) by (discriminate || exact HX).
    rewrite (calls_on_same _ P HP). reflexivity. }
  assert (Hcomm : calls_on dp_comm_stream issued =
            cb ++ X ++ [RecordEvent dp_comm_stream allreduce_grad_ready_event]).
  { rewrite Hshape, !calls_on_app. fold cb. rewrite (calls_on_same _ X HX).
    rewrite (calls_on_other _ torch_optim_comp_stream P) by (discriminate || exact HP).
    reflexivity. }
  (* the record of optimizer_step_ready_event and the wait that follows it *)
  set (A := before ++ X ++
            [RecordEvent dp_comm_stream allreduce_grad_ready_event;
             WaitEvent torch_optim_comp_stream allreduce_grad_ready_event] ++
            P ++ [Launch torch_optim_comp_stream optimizer_update]).
  assert (HA : issued = A ++
            [RecordEvent torch_optim_comp_stream optimizer_step_ready_event]).
  { rewrite Hshape. unfold A. rewrite <- !app_assoc. reflexivity. }
  assert (HcompA : calls_on torch_optim_comp_stream A =
            pb ++ WaitEvent torch_optim_comp_stream allreduce_grad_ready_event :: P ++
            [Launch torch_optim_comp_stream optimizer_update]).
  { unfold A. rewrite !calls_on_app. fold pb.
    rewrite (calls_on_other _ dp_comm_stream X) by (discriminate || exact HX).
    rewrite (calls_on_same _ P HP). reflexivity. }
  assert (Hend : completed m torch_optim_comp_stream
                   (length (calls_on torch_optim_comp_stream A))).
  { destruct (record_then_wait_queues A rest torch_optim_comp_stream s'
                optimizer_step_ready_event) as (g & Hg & Hrec & Hw).
    assert (Hprog : program = A ++
              RecordEvent torch_optim_comp_stream optimizer_step_ready_event
              :: WaitEvent s' optimizer_step_ready_event :: rest).
    { unfold program. rewrite HA, <- app_assoc. reflexivity. }
    rewrite <- Hprog, <- HA in *.
    exact (reachable_waits program _ _ _ g _ _ Hg Hrec Hw m Hreach Hb). }
  rewrite HcompA in Hend. rewrite !length_app in Hend. simpl in Hend.
  rewrite length_app in Hend. simpl in Hend.
  split.
  - exists (length pb + S (length P))%nat. split; [lia|]. split.
    + rewrite Hcomp. rewrite lookup_app_r by lia.
      replace (length pb + S (length P) - length pb)%nat with (S (length P)) by lia.
      simpl. rewrite lookup_app_r by lia. now rewrite Nat.sub_diag.
    + unfold completed in *. lia.
  - intros i buf Hi Hred.
    (* the record of allreduce_grad_ready_event and its wait *)
    assert (Hir : (i < length cb + length X)%nat).
    { rewrite Hcomm in Hred. apply lookup_after_prefix in Hred; [|exact Hi].
      destruct (decide (i - length cb < length X)%nat) as [Hlt|Hge]; [lia|].
      rewrite lookup_app_r in Hred by lia.
      apply list_lookup_singleton_Some in Hred as [_ Hred]. discriminate. }
    destruct (record_then_wait_queues (before ++ X)
                (P ++ [Launch torch_optim_comp_stream optimizer_update;
                       RecordEvent torch_optim_comp_stream optimizer_step_ready_event]
                   ++ WaitEvent s' optimizer_step_ready_event :: rest)
                dp_comm_stream torch_optim_comp_stream allreduce_grad_ready_event)
      as (g & Hg & Hrec & Hw).
    assert (Hprog : program = (before ++ X) ++
              RecordEvent dp_comm_stream allreduce_grad_ready_event
              :: WaitEvent torch_optim_comp_stream allreduce_grad_ready_event
              :: (P ++ [Launch torch_optim_comp_stream optimizer_update;
                        RecordEvent torch_optim_comp_stream optimizer_step_ready_event]
                    ++ WaitEvent s' optimizer_step_ready_event :: rest)).
    { unfold program. rewrite Hshape, <- !app_assoc. reflexivity. }
    rewrite <- Hprog in Hrec, Hw.
    rewrite calls_on_app in Hrec. fold cb in Hrec.
    rewrite (calls_on_same _ X HX), length_app in Hrec.
    rewrite !calls_on_app in Hw. fold pb in Hw.
    rewrite (calls_on_other _ dp_comm_stream X) in Hw by (discriminate || exact HX).
    rewrite calls_on_cons, decide_False in Hw by discriminate.
    simpl in Hw. rewrite !app_nil_r in Hw.
    assert (Hwb : begun m torch_optim_comp_stream (length pb))
      by (unfold begun, completed in *; lia).
    assert (Hc := reachable_waits program _ _ _ g _ _ Hg Hrec Hw m Hreach Hwb).
    unfold completed in *. lia.
Qed.

(** One step followed by a wait of the communication stream for
    [optimizer_step_ready_event] (as a later step of the caller might issue);
    everything runs, then that wait begins. *)
Definition finishing_schedule : list action :=
  repeat HostIssue 9 ++
  [ Begin dp_comm_stream; Finish dp_comm_stream;
    Begin dp_comm_stream; Finish dp_comm_stream;
    Begin dp_comm_stream; Finish dp_comm_stream;
    Begin dp_comm_stream; Finish dp_comm_stream;
    Begin torch_optim_comp_stream; Finish torch_optim_comp_stream;
    Begin torch_optim_comp_stream; Finish torch_optim_comp_stream;
    Begin torch_optim_comp_stream; Finish torch_optim_comp_stream;
    Begin torch_optim_comp_stream; Finish torch_optim_comp_stream;
    Begin dp_comm_stream ].

Lemma step_ready_event_marks_the_end_witness :
  exists m,
    run finishing_schedule
        (boot (step_calls (sample_dp true) ++
               [WaitEvent dp_comm_stream optimizer_step_ready_event])) = Some m /\
    begun m dp_comm_stream 4 /\
    completed m torch_optim_comp_stream 2 /\
    completed m dp_comm_stream 2.
Proof.
  destruct (run finishing_schedule
              (boot (step_calls (sample_dp true) ++
                     [WaitEvent dp_comm_stream optimizer_step_ready_event])))
    as [m|] eqn:E; [|vm_compute in E; discriminate].
  exists m. split; [reflexivity|].
  assert (Hb : begun m dp_comm_stream 4).
  { vm_compute in E. injection E as <-. right. split; reflexivity. }
  split; [exact Hb|].
  destruct (step_ready_event_marks_the_end (sample_dp true) [] []
              (step_calls (sample_dp true)) dp_comm_stream m)
    as ((j & _ & Hj & Hupd) & Hred).
  - reflexivity.
  - apply (run_rtc _ _ _ E).
  - exact Hb.
  - split.
    + assert (j = 2%nat) as <-; [|exact Hupd].
      destruct j as [|[|[|[|j]]]]; (reflexivity || discriminate).
    + apply (Hred 2%nat flatten_para_grad); [simpl; lia|reflexivity].
Defined.
